(** * polls/models.py: the model methods and the declared schema

    A shallow embedding of [polls/models.py].  The three methods the
    file defines itself ([Question.was_published_recently],
    [Person.baby_boomer_status], [Person.full_name]) are translated
    line by line; the class bodies are translated to a table of field
    declarations; the behaviour the file delegates to the ORM is given
    by small reference models, each marked as such. *)

From Stdlib Require Import ZArith Ascii String List Permutation Sorted Lia.
From stdpp Require Import base decidable option list strings gmap.

Local Open Scope string_scope.
Local Open Scope Z_scope.

(** ** Python results: a value, or a raised exception *)

Inductive exn :=
| TypeError
| ValueError
| IntegrityError.

Inductive result (A : Type) :=
| Ok (a : A)
| Raise (e : exn).
Arguments Ok {A} a.
Arguments Raise {A} e.

#[global] Instance result_ret : MRet result := fun _ a => Ok a.

#[global] Instance result_bind : MBind result := fun _ _ k r =>
  match r with
  | Ok a => k a
  | Raise e => Raise e
  end.

(** ** [datetime]: dates, instants and durations *)

Module datetime.

(** [datetime.date]: compared as the triple (year, month, day). *)
Record date := mkdate { year : Z; month : Z; day : Z }.

Definition MINYEAR := 1.
Definition MAXYEAR := 9999.

Definition is_leap (y : Z) : bool :=
  (y mod 4 =? 0) && (negb (y mod 100 =? 0) || (y mod 400 =? 0)).

Definition days_in_month (y m : Z) : Z :=
  if m =? 2 then (if is_leap y then 29 else 28)
  else if (m =? 4) || (m =? 6) || (m =? 9) || (m =? 11) then 30
  else 31.

(** [datetime.date(y, m, d)]: the constructor checks its fields. *)
Definition date_new (y m d : Z) : result date :=
  if negb ((MINYEAR <=? y) && (y <=? MAXYEAR)) then Raise ValueError
  else if negb ((1 <=? m) && (m <=? 12)) then Raise ValueError
  else if negb ((1 <=? d) && (d <=? days_in_month y m)) then Raise ValueError
  else Ok (mkdate y m d).

(** [date._cmp]: the order of the triples. *)
Definition date_cmp (a b : date) : comparison :=
  match year a ?= year b with
  | Eq => match month a ?= month b with
          | Eq => day a ?= day b
          | c => c
          end
  | c => c
  end.

Definition date_lt (a b : date) : bool :=
  match date_cmp a b with Lt => true | _ => false end.

Definition date_le (a b : date) : bool :=
  match date_cmp a b with Gt => false | _ => true end.

(** [a < b] where [a] may be [None]: Python refuses to order [None]
    against a date. *)
Definition lt (a : option date) (b : date) : result bool :=
  match a with
  | Some d => Ok (date_lt d b)
  | None => Raise TypeError
  end.

(** [datetime.timedelta], normalised to days, seconds, microseconds. *)
Record timedelta := mktimedelta
  { td_days : Z; td_seconds : Z; td_microseconds : Z }.

(** [datetime.timedelta(days=n)]. *)
Definition timedelta_days (n : Z) : timedelta := mktimedelta n 0 0.

Definition total_microseconds (d : timedelta) : Z :=
  (td_days d * 86400 + td_seconds d) * 1000000 + td_microseconds d.

(** An aware [datetime.datetime] is a point on the UTC time line, kept
    here as its distance in microseconds from 0001-01-01T00:00:00Z.
    Aware datetimes are ordered by that instant.  The clock value
    [timezone.now()] lies far from [datetime.min], so subtracting a day
    from it stays in range and the instant is left unbounded. *)
Record instant := mkinstant { micros : Z }.

(** [t - d] *)
Definition sub (t : instant) (d : timedelta) : instant :=
  mkinstant (micros t - total_microseconds d).

(** [a >= b] *)
Definition ge (a b : instant) : bool := micros b <=? micros a.

End datetime.

(** ** [class Question] *)

Module Question.

Record t := mk
  { question_text : string;
    pub_date : datetime.instant }.

(** [return self.pub_date >= timezone.now() - datetime.timedelta(days=1)]
    with the value of [timezone.now()] passed in as [now]. *)
Definition was_published_recently (self : t) (now : datetime.instant) : bool :=
  datetime.ge (pub_date self) (datetime.sub now (datetime.timedelta_days 1)).

Definition __str__ (self : t) : string := question_text self.

End Question.

(** ** ['%s %s' % (...)]: the fragment of printf-style formatting used *)

Fixpoint percent_format (fmt : string) (args : list string) : result string :=
  match fmt with
  | EmptyString =>
      match args with
      | [] => Ok EmptyString
      | _ :: _ => Raise TypeError
      end
  | String c rest =>
      if Ascii.eqb c "%" then
        match rest with
        | EmptyString => Raise ValueError
        | String k rest' =>
            if Ascii.eqb k "s" then
              match args with
              | a :: args' => r ← percent_format rest' args'; Ok (a +:+ r)
              | [] => Raise TypeError
              end
            else if Ascii.eqb k "%" then
              r ← percent_format rest' args; Ok (String "%" r)
            else Raise ValueError
        end
      else r ← percent_format rest args; Ok (String c r)
  end.

(** ** [class Person] *)

Module Person.

Record t := mk
  { name : string;
    shirt_size : string;
    first_name : string;
    last_name : string;
    birth_date : option datetime.date }.

(** [SHIRT_SIZES = (('S', 'Small'), ('M', 'Medium'), ('L', 'Large'))] *)
Definition SHIRT_SIZES : list (string * string) :=
  [("S", "Small"); ("M", "Medium"); ("L", "Large")].

Definition baby_boomer_status (self : t) : result string :=
  d1 ← datetime.date_new 1945 8 1;
  c1 ← datetime.lt (birth_date self) d1;
  if (c1 : bool) then Ok "Pre-boomer"
  else
    d2 ← datetime.date_new 1965 1 1;
    c2 ← datetime.lt (birth_date self) d2;
    if (c2 : bool) then Ok "Baby boomer"
    else Ok "Post-boomer".

(** A property getter runs on the object and hands it back: the pair
    of the value read and the object after the read. *)
Definition getter (A : Type) := t -> result A * t.

Definition getattr {A} (field : t -> A) : getter A :=
  fun self => (Ok (field self), self).

Definition getter_bind {A B} (g : getter A) (k : A -> getter B) : getter B :=
  fun self =>
    match g self with
    | (Ok a, self') => k a self'
    | (Raise e, self') => (Raise e, self')
    end.

(** [return '%s %s' % (self.first_name, self.last_name)] *)
Definition full_name : getter string :=
  getter_bind (getattr first_name) (fun f =>
  getter_bind (getattr last_name) (fun l =>
  fun self => (percent_format "%s %s" [f; l], self))).

End Person.

(** ** The class bodies of [models.py] as a table of declarations *)

Module Schema.

Inductive on_delete :=
| CASCADE
| PROTECT
| RESTRICT
| SET_NULL
| SET_DEFAULT
| DO_NOTHING.

Inductive field_kind :=
| CharField
| TextField
| EmailField
| IntegerField
| FloatField
| DecimalField
| DateField
| DateTimeField
| ForeignKey (to : string) (on_del : on_delete)
| ManyToManyField (to : string) (through : option string).

(** The defaults the file declares: [default=0], [default=5] and
    [default=datetime.date.today]. *)
Inductive default_value :=
| DefaultInt (z : Z)
| DefaultToday.

(** A field declaration with the options the properties below depend
    on; [max_length], [blank] and verbose names are left out. *)
Record field := mkfield
  { f_name : string;
    f_kind : field_kind;
    f_null : bool;
    f_primary_key : bool;
    f_choices : list (string * string);
    f_default : option default_value }.

Definition fld (n : string) (k : field_kind) : field :=
  mkfield n k false false [] None.

Definition null (f : field) : field :=
  mkfield (f_name f) (f_kind f) true (f_primary_key f) (f_choices f)
    (f_default f).

Definition primary_key (f : field) : field :=
  mkfield (f_name f) (f_kind f) (f_null f) true (f_choices f) (f_default f).

Definition choices (c : list (string * string)) (f : field) : field :=
  mkfield (f_name f) (f_kind f) (f_null f) (f_primary_key f) c (f_default f).

Definition with_default (d : default_value) (f : field) : field :=
  mkfield (f_name f) (f_kind f) (f_null f) (f_primary_key f) (f_choices f)
    (Some d).

(** A model class: its name, its fields in order, [Meta.ordering]. *)
Record model := mkmodel
  { m_name : string;
    m_fields : list field;
    m_ordering : list string }.

(** [MedalType = models.TextChoices('MedalType', 'GOLD SILVER BRONZE')],
    [MedalType.choices]. *)
Definition MedalType_choices : list (string * string) :=
  [("GOLD", "Gold"); ("SILVER", "Silver"); ("BRONZE", "Bronze")].

(** The classes in the order of the file.  [Entry.authors] names
    [Author], which the file declares only further down; the table
    records each declaration as it is written. *)
Definition models_py : list model :=
  [ mkmodel "Question"
      [ fld "question_text" CharField;
        fld "pub_date" DateTimeField ] [];
    mkmodel "Choice"
      [ fld "question" (ForeignKey "Question" CASCADE);
        fld "choice_text" CharField;
        with_default (DefaultInt 0) (fld "votes" IntegerField) ] [];
    mkmodel "Person"
      [ fld "name" CharField;
        choices Person.SHIRT_SIZES (fld "shirt_size" CharField);
        fld "first_name" CharField;
        fld "last_name" CharField;
        null (fld "birth_date" DateField) ] [];
    mkmodel "Group"
      [ fld "name" CharField;
        fld "members" (ManyToManyField "Person" (Some "Membership")) ] [];
    mkmodel "Membership"
      [ fld "person" (ForeignKey "Person" CASCADE);
        fld "group" (ForeignKey "Group" CASCADE);
        fld "date_joined" DateField;
        fld "invite_reason" CharField ] [];
    mkmodel "Ox"
      [ fld "horn_length" IntegerField ] ["horn_length"];
    mkmodel "Musician"
      [ fld "first_name" CharField;
        fld "last_name" CharField;
        fld "instrument" CharField ] [];
    mkmodel "Album"
      [ fld "artist" (ForeignKey "Musician" CASCADE);
        fld "name" CharField;
        fld "release_date" DateField;
        fld "num_stars" IntegerField ] [];
    mkmodel "Runner"
      [ fld "name" CharField;
        choices MedalType_choices (fld "medal" CharField) ] [];
    mkmodel "Fruit"
      [ primary_key (fld "name" CharField) ] [];
    mkmodel "Manufacturer" [] [];
    mkmodel "Car"
      [ fld "manufacturer" (ForeignKey "Manufacturer" CASCADE) ] [];
    mkmodel "Topping" [] [];
    mkmodel "Pizza"
      [ fld "toppings" (ManyToManyField "Topping" None) ] [];
    mkmodel "Blog1"
      [ fld "name" CharField;
        fld "tagline" TextField ] [];
    mkmodel "Blog"
      [ fld "name" CharField;
        fld "tagline" TextField ] [];
    mkmodel "Entry"
      [ fld "blog" (ForeignKey "Blog" CASCADE);
        fld "headline" CharField;
        fld "body_text" TextField;
        fld "pub_date" DateField;
        with_default DefaultToday (fld "mod_date" DateField);
        fld "authors" (ManyToManyField "Author" None);
        with_default (DefaultInt 0) (fld "number_of_comments" IntegerField);
        with_default (DefaultInt 0) (fld "number_of_pingbacks" IntegerField);
        with_default (DefaultInt 5) (fld "rating" IntegerField) ] [];
    mkmodel "Author"
      [ fld "name" CharField;
        fld "email" EmailField;
        fld "age" IntegerField ] [];
    mkmodel "Publisher"
      [ fld "name" CharField ] [];
    mkmodel "Book"
      [ fld "name" CharField;
        fld "pages" IntegerField;
        fld "price" DecimalField;
        fld "rating" FloatField;
        fld "authors" (ManyToManyField "Author" None);
        fld "publisher" (ForeignKey "Publisher" CASCADE);
        fld "pubdate" DateField ] [];
    mkmodel "Store"
      [ fld "name" CharField;
        fld "books" (ManyToManyField "Book" None) ] [] ].

(** Lookups in a list of declarations. *)
Definition find_model (ms : list model) (n : string) : option model :=
  find (fun m => String.eqb (m_name m) n) ms.

Definition find_field (m : model) (n : string) : option field :=
  find (fun f => String.eqb (f_name f) n) (m_fields m).

Definition is_cascade (p : on_delete) : bool :=
  match p with CASCADE => true | _ => false end.

(** A foreign key as declared: field, target, deletion rule, [null]. *)
Record foreign_key := mkfk
  { fk_field : string;
    fk_to : string;
    fk_on_delete : on_delete;
    fk_null : bool }.

Definition foreign_keys (m : model) : list foreign_key :=
  flat_map (fun f =>
    match f_kind f with
    | ForeignKey to pol => [mkfk (f_name f) to pol (f_null f)]
    | _ => []
    end) (m_fields m).

(** Every foreign key declared in [ms] has [on_delete=CASCADE]. *)
Definition all_foreign_keys_cascade (ms : list model) : bool :=
  forallb (fun m =>
    forallb (fun k => is_cascade (fk_on_delete k)) (foreign_keys m)) ms.

Definition field_of (ms : list model) (n f : string) : option field :=
  m ← find_model ms n; find_field m f.

End Schema.

(** ** A reference model of the ORM operations the file relies on

    Modelled from the spec: the framework's object-relational layer,
    which [models.py] calls in its docstrings but does not contain.
    [models.py] only declares its tables; storing, deleting, ordering
    and relating rows is done by the framework.  The definitions of this
    module describe those operations on a list of rows, driven by the
    declarations of [Schema]. *)

Module ORM.
Import Schema.

(** Column values: [None], an [int], a [str], a [datetime.date], an
    aware [datetime.datetime], a finite [float] [m * 2^e], a finite
    [Decimal] [m * 10^e]. *)
Inductive value :=
| VNull
| VInt (z : Z)
| VStr (s : string)
| VDate (d : datetime.date)
| VInstant (t : datetime.instant)
| VFloat (m e : Z)
| VDecimal (m e : Z).

#[global] Instance date_eq_dec : EqDecision datetime.date.
Proof. solve_decision. Defined.

#[global] Instance instant_eq_dec : EqDecision datetime.instant.
Proof. solve_decision. Defined.

#[global] Instance value_eq_dec : EqDecision value.
Proof. solve_decision. Defined.

(** A row (and an instance in memory): its model and its columns.  A
    foreign key column holds the primary key of the row referred to. *)
Record row := mkrow
  { r_model : string;
    r_cols : list (string * value) }.

#[global] Instance row_eq_dec : EqDecision row.
Proof. solve_decision. Defined.

Fixpoint assoc {A} (k : string) (l : list (string * A)) : option A :=
  match l with
  | [] => None
  | (k', v) :: l' => if String.eqb k' k then Some v else assoc k l'
  end.

Fixpoint assoc_set {A} (k : string) (v : A) (l : list (string * A))
  : list (string * A) :=
  match l with
  | [] => [(k, v)]
  | (k', v') :: l' =>
      if String.eqb k' k then (k, v) :: l' else (k', v') :: assoc_set k v l'
  end.

(** [getattr(r, f)], with an unset attribute read as [None]. *)
Definition col (r : row) (f : string) : value :=
  default VNull (assoc f (r_cols r)).

(** [setattr(r, f, v)] *)
Definition setattr (r : row) (f : string) (v : value) : row :=
  mkrow (r_model r) (assoc_set f v (r_cols r)).

Definition lower_ascii (c : ascii) : ascii :=
  let n := nat_of_ascii c in
  if (Nat.leb 65 n && Nat.leb n 90)%bool then ascii_of_nat (n + 32) else c.

Fixpoint lower (s : string) : string :=
  match s with
  | EmptyString => EmptyString
  | String c s' => String (lower_ascii c) (lower s')
  end.

(** Modelled from the spec: the table the framework creates for a
    many-to-many field declared without [through]; it links the two
    sides by two cascading foreign keys. *)
Definition auto_through (m : model) : list model :=
  flat_map (fun f =>
    match f_kind f with
    | ManyToManyField to None =>
        [ mkmodel (m_name m +:+ "_" +:+ f_name f)
            [ fld (lower (m_name m)) (ForeignKey (m_name m) CASCADE);
              fld (lower to) (ForeignKey to CASCADE) ] [] ]
    | _ => []
    end) (m_fields m).

Definition tables (ms : list model) : list model :=
  ms ++ flat_map auto_through ms.

Section orm.
Variable models : list model.

Definition table (n : string) : option model := find_model (tables models) n.

(** The explicit primary key of a model, else the implicit [id]. *)
Definition explicit_pk (n : string) : option string :=
  m ← table n; f_name <$> find f_primary_key (m_fields m).

Definition pk_name (n : string) : string := default "id" (explicit_pk n).

Definition pk (r : row) : value := col r (pk_name (r_model r)).

(** The identity of a row: its model and its primary key. *)
Definition rid (r : row) : string * value := (r_model r, pk r).

Definition fks (n : string) : list foreign_key :=
  match table n with
  | Some m => foreign_keys m
  | None => []
  end.

Definition ordering (n : string) : list string :=
  match table n with
  | Some m => m_ordering m
  | None => []
  end.

(** *** Deletion *)

(** [r] refers, through a cascading foreign key, to a row of [seen]. *)
Definition points_to (seen : list (string * value)) (r : row) : bool :=
  existsb (fun k =>
    is_cascade (fk_on_delete k)
    && negb (bool_decide (col r (fk_field k) = VNull))
    && bool_decide ((fk_to k, col r (fk_field k)) ∈ seen)) (fks (r_model r)).

(** The rows to delete: the seeds, then round after round the rows
    that point to a row already collected. *)
Fixpoint collect (fuel : nat) (seen : list (string * value)) (rest : list row)
  : list (string * value) :=
  match fuel with
  | O => seen
  | S n =>
      match List.filter (points_to seen) rest with
      | [] => seen
      | hit =>
          collect n (seen ++ map rid hit)
            (List.filter (fun r => negb (points_to seen r)) rest)
      end
  end.

(** Modelled from the spec: the framework's deletion of a set of rows,
    [QuerySet.delete()], which is not in [models.py]: the rows named and
    every row that depends on a deleted row through a foreign key
    declared [on_delete=CASCADE] are removed. *)
Definition delete_objs (db : list row) (targets : list (string * value))
  : list row :=
  let doomed := collect (length db) targets db in
  List.filter (fun r => negb (bool_decide (rid r ∈ doomed))) db.

(** [obj.delete()] *)
Definition delete (db : list row) (target : string * value) : list row :=
  delete_objs db [target].

(** *** Referential integrity *)

Definition resolves (db : list row) (to : string) (v : value) : bool :=
  existsb (fun r' => bool_decide (rid r' = (to, v))) db.

(** Every foreign key of [r] refers to a row of [db], or is unset where
    the declaration allows [null]. *)
Definition row_ok (db : list row) (r : row) : bool :=
  forallb (fun k =>
    if bool_decide (col r (fk_field k) = VNull) then fk_null k
    else resolves db (fk_to k) (col r (fk_field k)))
    (fks (r_model r)).

Definition integrity (db : list row) : bool := forallb (row_ok db) db.

(** Foreign keys resolve and primary keys are unique. *)
Definition consistent (db : list row) : Prop :=
  integrity db = true /\ NoDup (map rid db).

(** *** Default ordering *)

(** Values of different kinds are kept apart, [None] first. *)
Definition rank (v : value) : Z :=
  match v with
  | VNull => 0
  | VInt _ => 1
  | VStr _ => 2
  | VDate _ => 3
  | VInstant _ => 4
  | VFloat _ _ => 5
  | VDecimal _ _ => 6
  end.

(** [m1 * base^e1] against [m2 * base^e2]. *)
Definition scaled_cmp (base m1 e1 m2 e2 : Z) : comparison :=
  let e := Z.min e1 e2 in
  (m1 * base ^ (e1 - e)) ?= (m2 * base ^ (e2 - e)).

Definition value_cmp (a b : value) : comparison :=
  match a, b with
  | VInt x, VInt y => x ?= y
  | VStr x, VStr y => String.compare x y
  | VDate x, VDate y => datetime.date_cmp x y
  | VInstant x, VInstant y => datetime.micros x ?= datetime.micros y
  | VFloat m1 e1, VFloat m2 e2 => scaled_cmp 2 m1 e1 m2 e2
  | VDecimal m1 e1, VDecimal m2 e2 => scaled_cmp 10 m1 e1 m2 e2
  | _, _ => rank a ?= rank b
  end.

(** One entry of [Meta.ordering]: a field name, descending when
    prefixed by a hyphen. *)
Definition key_cmp (k : string) (a b : row) : comparison :=
  match k with
  | String c f =>
      if Ascii.eqb c "-" then CompOpp (value_cmp (col a f) (col b f))
      else value_cmp (col a k) (col b k)
  | EmptyString => value_cmp (col a k) (col b k)
  end.

Fixpoint row_cmp (keys : list string) (a b : row) : comparison :=
  match keys with
  | [] => Eq
  | k :: keys' =>
      match key_cmp k a b with
      | Eq => row_cmp keys' a b
      | c => c
      end
  end.

Definition row_le (keys : list string) (a b : row) : bool :=
  match row_cmp keys a b with Gt => false | _ => true end.

Fixpoint insert_by (le : row -> row -> bool) (x : row) (l : list row)
  : list row :=
  match l with
  | [] => [x]
  | y :: l' => if le x y then x :: y :: l' else y :: insert_by le x l'
  end.

Fixpoint sort_by (le : row -> row -> bool) (l : list row) : list row :=
  match l with
  | [] => []
  | x :: l' => insert_by le x (sort_by le l')
  end.

Definition rows_of (db : list row) (n : string) : list row :=
  List.filter (fun r => String.eqb (r_model r) n) db.

(** Modelled from the spec: [Model.objects.all()], not in [models.py]:
    the rows of the model, in the order that the model's
    [Meta.ordering] asks for. *)
Definition all (db : list row) (n : string) : list row :=
  sort_by (row_le (ordering n)) (rows_of db n).

Definition int_of (v : value) : option Z :=
  match v with
  | VInt z => Some z
  | _ => None
  end.

Definition is_int (v : value) : bool :=
  match v with
  | VInt _ => true
  | _ => false
  end.

(** *** Saving *)

Definition int_pk (r : row) : Z := default 0 (int_of (pk r)).

(** The next automatic [id] of a table. *)
Definition next_id (db : list row) (n : string) : Z :=
  1 + fold_right Z.max 0 (map int_pk (rows_of db n)).

(** The columns of a table: its fields but the many-to-many ones. *)
Definition is_column (f : field) : bool :=
  match f_kind f with
  | ManyToManyField _ _ => false
  | _ => true
  end.

Definition columns (n : string) : list field :=
  match table n with
  | Some m => List.filter is_column (m_fields m)
  | None => []
  end.

(** The value an attribute takes when the constructor is not given it:
    the declared default, else the empty string for a text field that is
    not nullable, else [None]. *)
Definition field_default (today : datetime.date) (f : field) : value :=
  match f_default f with
  | Some (DefaultInt z) => VInt z
  | Some DefaultToday => VDate today
  | None =>
      if f_null f then VNull
      else
        match f_kind f with
        | CharField | TextField | EmailField => VStr EmptyString
        | _ => VNull
        end
  end.

(** Modelled from the spec: the constructor [Model(...)], not in
    [models.py]: the attributes given, then every other column with its
    default.  [today] is the value of [datetime.date.today()]. *)
Definition init (today : datetime.date) (kwargs : row) : row :=
  mkrow (r_model kwargs)
    (r_cols kwargs ++
     flat_map (fun f =>
       match assoc (f_name f) (r_cols kwargs) with
       | Some _ => []
       | None => [(f_name f, field_default today f)]
       end) (columns (r_model kwargs))).

Definition valid_date (d : datetime.date) : bool :=
  match datetime.date_new (datetime.year d) (datetime.month d)
          (datetime.day d) with
  | Ok _ => true
  | Raise _ => false
  end.

(** A value of the type a field of this kind holds. *)
Definition base_kind_ok (k : field_kind) (v : value) : bool :=
  match k, v with
  | CharField, VStr _ => true
  | TextField, VStr _ => true
  | EmailField, VStr _ => true
  | IntegerField, VInt _ => true
  | FloatField, VFloat _ _ => true
  | DecimalField, VDecimal _ _ => true
  | DateField, VDate d => valid_date d
  | DateTimeField, VInstant _ => true
  | _, _ => false
  end.

(** The kind of a model's primary key: that of the field declared
    [primary_key=True], else the integer of the implicit [id]. *)
Definition pk_kind (n : string) : field_kind :=
  default IntegerField
    (m ← table n; f_kind <$> find f_primary_key (m_fields m)).

(** A foreign key holds a primary key of its target. *)
Definition kind_ok (k : field_kind) (v : value) : bool :=
  match k with
  | ForeignKey to _ => base_kind_ok (pk_kind to) v
  | ManyToManyField _ _ => true
  | _ => base_kind_ok k v
  end.

(** Every column that is set holds a value of its declared type, and so
    does the implicit [id]. *)
Definition types_ok (r : row) : bool :=
  forallb (fun f =>
    bool_decide (col r (f_name f) = VNull)
    || kind_ok (f_kind f) (col r (f_name f))) (columns (r_model r))
  && match explicit_pk (r_model r) with
     | None => is_int (pk r)
     | Some _ => true
     end.

(** Only a column declared [null=True] is unset. *)
Definition not_null_ok (r : row) : bool :=
  forallb (fun f => f_null f || negb (bool_decide (col r (f_name f) = VNull)))
    (columns (r_model r)).

(** A row as its table declares it. *)
Definition conforms (r : row) : bool := types_ok r && not_null_ok r.

Definition typed (db : list row) : bool := forallb conforms db.

(** An instance ready to be written.  Its model is a declared one; an
    unset automatic [id] is drawn; every column holds a value of its
    declared type ([ValueError] otherwise; the conversions the framework
    tries first are not modelled); no column is unset unless declared
    [null=True], and the foreign keys refer to stored rows
    ([IntegrityError] otherwise). *)
Definition prepare (db : list row) (inst : row) : result row :=
  match table (r_model inst) with
  | None => Raise ValueError
  | Some _ =>
      inst' ← (if bool_decide (pk inst = VNull) then
                 match explicit_pk (r_model inst) with
                 | None =>
                     Ok (setattr inst "id"
                           (VInt (next_id db (r_model inst))))
                 | Some _ => Raise IntegrityError
                 end
               else Ok inst);
      if negb (types_ok inst') then Raise ValueError
      else if negb (not_null_ok inst') then Raise IntegrityError
      else if row_ok db inst' then Ok inst'
      else Raise IntegrityError
  end.

(** Modelled from the spec: [Model.save()], not in [models.py]: the row
    with the instance's primary key is updated if there is one, else a
    row is inserted.  The result is the table and the saved instance. *)
Definition save (db : list row) (inst : row) : result (list row * row) :=
  inst' ← prepare db inst;
  if resolves db (r_model inst') (pk inst') then
    Ok (map (fun r => if bool_decide (rid r = rid inst') then inst' else r) db,
        inst')
  else Ok ((db ++ [inst'])%list, inst').

(** Modelled from the spec: [Model.objects.create(...)], not in
    [models.py]: the object is constructed from the attributes given,
    then saved, always as an insertion. *)
Definition create (today : datetime.date) (db : list row) (kwargs : row)
  : result (list row * row) :=
  inst' ← prepare db (init today kwargs);
  if resolves db (r_model inst') (pk inst') then Raise IntegrityError
  else Ok ((db ++ [inst'])%list, inst').

(** *** Many-to-many managers *)

(** A many-to-many field seen from its owner: the table of links, the
    link's foreign key to the owner and to the other side. *)
Record relation := mkrel
  { through : string;
    source_field : string;
    target_field : string;
    target_model : string }.

Definition fk_towards (n to : string) : option string :=
  fk_field <$> find (fun k => String.eqb (fk_to k) to) (fks n).

Definition m2m (n f : string) : option relation :=
  m ← table n;
  fd ← find_field m f;
  match f_kind fd with
  | ManyToManyField to thr =>
      let tn := default (n +:+ "_" +:+ f) thr in
      src ← fk_towards tn n;
      tgt ← fk_towards tn to;
      Some (mkrel tn src tgt to)
  | _ => None
  end.

(** The link rows of the owner with primary key [g]. *)
Definition links (db : list row) (rel : relation) (g : value) : list row :=
  List.filter (fun r =>
    String.eqb (r_model r) (through rel)
    && bool_decide (col r (source_field rel) = g)) db.

Definition linked (db : list row) (rel : relation) (g p : value) : bool :=
  existsb (fun m => bool_decide (col m (target_field rel) = p))
    (links db rel g).

(** Modelled from the spec: [owner.field.all()], not in [models.py]: the
    rows of the other side joined to the owner's link rows. *)
Definition related (db : list row) (rel : relation) (g : value) : list row :=
  sort_by (row_le (ordering (target_model rel)))
    (flat_map (fun m =>
       List.filter (fun p =>
         bool_decide (rid p = (target_model rel, col m (target_field rel))))
         db)
       (links db rel g)).

(** Modelled from the spec: [owner.field.add(objs, through_defaults)],
    not in [models.py]: a link row, carrying the defaults, is created
    for each object not linked yet. *)
Fixpoint add (today : datetime.date) (db : list row) (rel : relation)
  (g : value) (ps : list value) (through_defaults : list (string * value))
  : result (list row) :=
  match ps with
  | [] => Ok db
  | p :: ps' =>
      if bool_decide (g = VNull) || bool_decide (p = VNull) then
        Raise ValueError
      else if linked db rel g p then add today db rel g ps' through_defaults
      else
        '(db', _) ← create today db
          (mkrow (through rel)
             ((source_field rel, g) :: (target_field rel, p)
              :: through_defaults));
        add today db' rel g ps' through_defaults
  end.

(** Modelled from the spec: [owner.field.remove(objs)], not in
    [models.py]: the owner's link rows to the objects are deleted. *)
Definition remove (db : list row) (rel : relation) (g : value)
  (ps : list value) : result (list row) :=
  if bool_decide (g = VNull) then Raise ValueError
  else
    Ok (delete_objs db
          (map rid
             (List.filter
                (fun m => bool_decide (col m (target_field rel) ∈ ps))
                (links db rel g)))).

(** Modelled from the spec: [owner.field.clear()], not in [models.py]:
    all link rows of the owner are deleted. *)
Definition clear (db : list row) (rel : relation) (g : value)
  : result (list row) :=
  if bool_decide (g = VNull) then Raise ValueError
  else Ok (delete_objs db (map rid (links db rel g))).

(** Modelled from the spec: [owner.field.set(objs, through_defaults)],
    not in [models.py]: the links to objects no longer listed are
    removed, the listed objects not linked yet are added. *)
Definition set_ (today : datetime.date) (db : list row) (rel : relation)
  (g : value) (ps : list value) (through_defaults : list (string * value))
  : result (list row) :=
  let old := map (fun m => col m (target_field rel)) (links db rel g) in
  db' ← remove db rel g
          (List.filter (fun p => negb (bool_decide (p ∈ ps))) old);
  add today db' rel g
    (List.filter (fun p => negb (bool_decide (p ∈ old))) ps)
    through_defaults.

(** Modelled from the spec: [owner.field.create(fields,
    through_defaults)], not in [models.py]: the object is created, then added. *)
Definition create_related (today : datetime.date) (db : list row)
  (rel : relation) (g : value) (kwargs : row)
  (through_defaults : list (string * value)) : result (list row * row) :=
  if bool_decide (g = VNull) then Raise ValueError
  else
    '(db1, inst') ← create today db kwargs;
    db2 ← add today db1 rel g [pk inst'] through_defaults;
    Ok (db2, inst').

(** *** The documented operations as steps between tables *)

Inductive step : list row -> list row -> Prop :=
| step_save db inst db' inst' :
    save db inst = Ok (db', inst') -> step db db'
| step_create today db kwargs db' inst' :
    create today db kwargs = Ok (db', inst') -> step db db'
| step_delete db targets :
    step db (delete_objs db targets)
| step_add today db n f rel g ps td db' :
    m2m n f = Some rel -> add today db rel g ps td = Ok db' -> step db db'
| step_set today db n f rel g ps td db' :
    m2m n f = Some rel -> set_ today db rel g ps td = Ok db' -> step db db'
| step_remove db n f rel g ps db' :
    m2m n f = Some rel -> remove db rel g ps = Ok db' -> step db db'
| step_clear db n f rel g db' :
    m2m n f = Some rel -> clear db rel g = Ok db' -> step db db'
| step_create_related today db n f rel g kwargs td db' inst' :
    m2m n f = Some rel ->
    create_related today db rel g kwargs td = Ok (db', inst') -> step db db'.

Inductive reachable : list row -> Prop :=
| reachable_empty : reachable []
| reachable_step db db' : reachable db -> step db db' -> reachable db'.

(** *** Choices *)

(** [dict(pairs)]: a later pair replaces an earlier one with its key. *)
Definition dict (pairs : list (string * string)) : gmap string string :=
  fold_left (fun d kv => <[kv.1 := kv.2]> d) pairs ∅.

Definition field_choices (n f : string) : list (string * string) :=
  default [] (m ← table n; f_choices <$> find_field m f).

(** Modelled from the spec: the accessor [get_FOO_display()] that the
    framework adds for a field with [choices], not in [models.py]: the
    label paired with the stored value, the value itself if none is. *)
Definition get_FIELD_display (n f : string) (v : string) : string :=
  default v (dict (field_choices n f) !! v).

End orm.
End ORM.

(** [Person.get_shirt_size_display()] *)
Definition get_shirt_size_display (self : Person.t) : string :=
  ORM.get_FIELD_display Schema.models_py "Person" "shirt_size"
    (Person.shirt_size self).

(** [Group.members = ManyToManyField(Person, through='Membership')] seen
    from a group. *)
Definition Group_members : ORM.relation :=
  ORM.mkrel "Membership" "group" "person" "Person".

(** The rows of the [Membership] docstring once [ringo], [beatles] and
    [m1] are stored.  [ringo] is [Person(name="Ringo Starr")]: the
    attributes not given have their defaults. *)
Definition ringo : ORM.row :=
  ORM.mkrow "Person"
    [ ("name", ORM.VStr "Ringo Starr");
      ("shirt_size", ORM.VStr EmptyString);
      ("first_name", ORM.VStr EmptyString);
      ("last_name", ORM.VStr EmptyString);
      ("birth_date", ORM.VNull) ].

(** The attributes of [Person.objects.create(name="Paul McCartney")]. *)
Definition paul : ORM.row :=
  ORM.mkrow "Person" [("name", ORM.VStr "Paul McCartney")].

Definition beatles : ORM.row :=
  ORM.mkrow "Group" [("name", ORM.VStr "The Beatles")].

Definition m1 : ORM.row :=
  ORM.mkrow "Membership"
    [ ("person", ORM.VInt 1); ("group", ORM.VInt 1);
      ("date_joined", ORM.VDate (datetime.mkdate 1962 8 16));
      ("invite_reason", ORM.VStr "Needed a new drummer.") ].

Definition beatles_session : list ORM.row :=
  [ ORM.setattr ringo "id" (ORM.VInt 1);
    ORM.setattr beatles "id" (ORM.VInt 1);
    ORM.setattr m1 "id" (ORM.VInt 1) ].

(** [ox.horn_length] of a stored ox. *)
Definition horn_length (r : ORM.row) : Z :=
  default 0 (ORM.int_of (ORM.col r "horn_length")).

(** [person.group_set], the reverse side of [Group.members]. *)
Definition Person_group_set : ORM.relation :=
  ORM.mkrel "Membership" "person" "group" "Group".

(** [' ' in s] *)
Fixpoint contains_space (s : string) : bool :=
  match s with
  | EmptyString => false
  | String c s' => Ascii.eqb c " " || contains_space s'
  end.

(** ** Running the class statements of the module *)

Module Pyimport.
Import Schema.

(** Importing a module runs its statements from top to bottom: either
    every class statement runs and binds its name, or one raises
    [NameError] for a name not bound yet, with the names bound so far. *)
Inductive outcome :=
| Imported (bound : list string)
| NameError (name : string) (bound : list string).

(** The global names bound before the first class statement:
    [import datetime], [from django.db import models],
    [from django.utils import timezone]. *)
Definition module_globals : list string := ["datetime"; "models"; "timezone"].

(** The class names a class body looks up while it runs.  In
    [models.py] every relation is given its target as a name, as in
    [ForeignKey(Question, ...)]; only [through='Membership'] is a string,
    which nothing looks up when the body runs. *)
Definition names_read (m : model) : list string :=
  flat_map (fun f =>
    match f_kind f with
    | ForeignKey to _ => [to]
    | ManyToManyField to _ => [to]
    | _ => []
    end) (m_fields m).

Definition is_bound (bound : list string) (n : string) : bool :=
  existsb (String.eqb n) bound.

Fixpoint exec_classes (bound : list string) (ms : list model) : outcome :=
  match ms with
  | [] => Imported bound
  | m :: ms' =>
      match find (fun n => negb (is_bound bound n)) (names_read m) with
      | Some n => NameError n bound
      | None => exec_classes (bound ++ [m_name m]) ms'
      end
  end.

End Pyimport.

(** * Properties of the methods *)

Section date_order.
Import datetime.

Lemma date_lt_false_le (a b : date) : date_lt a b = false <-> date_le b a = true.
Proof.
  unfold date_lt, date_le, date_cmp.
  destruct a as [ya ma da], b as [yb mb db]; simpl.
  rewrite (Z.compare_antisym ya yb), (Z.compare_antisym ma mb),
    (Z.compare_antisym da db).
  destruct (ya ?= yb), (ma ?= mb), (da ?= db); simpl;
    split; congruence.
Qed.

Lemma date_lt_trans (a b c : date) :
  date_lt a b = true -> date_lt b c = true -> date_lt a c = true.
Proof.
  unfold date_lt, date_cmp.
  destruct a as [ya ma da], b as [yb mb db], c as [yc mc dc]; simpl.
  destruct (Z.compare_spec ya yb), (Z.compare_spec yb yc); try discriminate;
    destruct (Z.compare_spec ma mb), (Z.compare_spec mb mc); try discriminate;
    destruct (Z.compare_spec da db), (Z.compare_spec db dc); try discriminate;
    intros _ _;
    repeat match goal with
      | |- context [?x ?= ?y] => destruct (Z.compare_spec x y); try lia
      end; reflexivity.
Qed.

End date_order.

(** ** [Question.was_published_recently] *)

Lemma recently_iff (q : Question.t) (t : datetime.instant) :
  Question.was_published_recently q t = true <->
  datetime.micros t - 86400 * 1000000 <= datetime.micros (Question.pub_date q).
Proof.
  unfold Question.was_published_recently, datetime.ge, datetime.sub,
    datetime.timedelta_days, datetime.total_microseconds; simpl.
  rewrite Z.leb_le. lia.
Qed.

(** C1: at every evaluation time [t], [was_published_recently] is the one
    comparison [pub_date >= t - 1 day]: it holds exactly when the publish
    instant is no earlier than one day (86400 seconds, in microseconds)
    before [t]. *)
Theorem was_published_recently_window (q : Question.t) (t : datetime.instant) :
  Question.was_published_recently q t = true <->
  datetime.micros (Question.pub_date q) >= datetime.micros t - 86400 * 1000000.
Proof.
  rewrite recently_iff. lia.
Qed.

(** C9: a question whose [pub_date] lies after the evaluation time is
    reported as published recently: the comparison has no upper bound. *)
Theorem was_published_recently_future (q : Question.t) (t : datetime.instant) :
  datetime.micros t < datetime.micros (Question.pub_date q) ->
  Question.was_published_recently q t = true.
Proof.
  intros Hfuture. apply recently_iff. lia.
Qed.

Lemma was_published_recently_future_witness :
  Question.was_published_recently
    (Question.mk "What's new?" (datetime.mkinstant 63800000000000000))
    (datetime.mkinstant 63700000000000000) = true.
Proof.
  apply was_published_recently_future. simpl. lia.
Defined.

(** ** [Person.baby_boomer_status] *)

Section baby_boomer.
Import datetime.

Lemma status_unfold (p : Person.t) (d : date) :
  Person.birth_date p = Some d ->
  Person.baby_boomer_status p =
    if date_lt d (mkdate 1945 8 1) then Ok "Pre-boomer"
    else if date_lt d (mkdate 1965 1 1) then Ok "Baby boomer"
    else Ok "Post-boomer".
Proof.
  intros Hd. unfold Person.baby_boomer_status. rewrite Hd. simpl.
  destruct (date_lt d _); [reflexivity|]. simpl.
  destruct (date_lt d _); reflexivity.
Qed.

(** C2: with a birth date set, [baby_boomer_status] returns
    ["Pre-boomer"] before 1945-08-01, ["Baby boomer"] from 1945-08-01 up
    to but not including 1965-01-01, and ["Post-boomer"] in every other
    case. *)
Theorem baby_boomer_status_cases (p : Person.t) (d : date) :
  Person.birth_date p = Some d ->
  (date_lt d (mkdate 1945 8 1) = true ->
   Person.baby_boomer_status p = Ok "Pre-boomer")
  /\ (date_le (mkdate 1945 8 1) d = true ->
      date_lt d (mkdate 1965 1 1) = true ->
      Person.baby_boomer_status p = Ok "Baby boomer")
  /\ (date_lt d (mkdate 1945 8 1) = false ->
      date_le (mkdate 1945 8 1) d && date_lt d (mkdate 1965 1 1) = false ->
      Person.baby_boomer_status p = Ok "Post-boomer").
Proof.
  intros Hd. rewrite (status_unfold p d Hd).
  repeat split.
  - intros ->. reflexivity.
  - intros Hle Hlt. apply date_lt_false_le in Hle. rewrite Hle, Hlt. reflexivity.
  - intros Hpre Hmid. rewrite Hpre.
    apply date_lt_false_le in Hpre. rewrite Hpre in Hmid. simpl in Hmid.
    rewrite Hmid. reflexivity.
Qed.

Lemma baby_boomer_status_cases_witness :
  Person.baby_boomer_status
    (Person.mk "Paul McCartney" "M" "Paul" "McCartney" (Some (mkdate 1942 6 18)))
  = Ok "Pre-boomer".
Proof.
  refine (proj1 (baby_boomer_status_cases _ (mkdate 1942 6 18) _) _);
    reflexivity.
Defined.

(** C10: the declaration allows [birth_date] to be null, the method
    does not guard against it, and on a person without a birth date the
    first comparison raises [TypeError]: no status string is returned. *)
Theorem baby_boomer_status_null (p : Person.t) :
  Person.birth_date p = None ->
  Schema.f_null <$> Schema.field_of Schema.models_py "Person" "birth_date"
    = Some true
  /\ Person.baby_boomer_status p = Raise TypeError
  /\ (forall s, Person.baby_boomer_status p <> Ok s).
Proof.
  intros Hnull. unfold Person.baby_boomer_status. rewrite Hnull.
  repeat split. discriminate.
Qed.

Lemma baby_boomer_status_null_witness :
  Person.baby_boomer_status (Person.mk "Ringo Starr" EmptyString EmptyString EmptyString None)
  = Raise TypeError.
Proof.
  refine (proj1 (proj2 (baby_boomer_status_null _ _))). reflexivity.
Defined.

End baby_boomer.

(** ** [Person.full_name] *)

Lemma append_empty_r (s : string) : s +:+ EmptyString = s.
Proof.
  induction s as [|c s IH]; [reflexivity|].
  change (String c (s +:+ EmptyString) = String c s). now rewrite IH.
Qed.

(** C3: reading [full_name] yields the first name, one space and the
    last name, and hands the person back with every field as it was. *)
Theorem full_name_concat (p : Person.t) :
  Person.full_name p
  = (Ok (Person.first_name p +:+ " " +:+ Person.last_name p), p).
Proof.
  unfold Person.full_name, Person.getter_bind, Person.getattr. simpl.
  now rewrite append_empty_r.
Qed.

(** ** [Person.SHIRT_SIZES] *)

(** C6: the values declared for [shirt_size] are ['S'], ['M'], ['L'] and
    no other, and the display accessor gives ['Small'], ['Medium'],
    ['Large'] for them. *)
Theorem shirt_size_display (n fn ln : string) (bd : option datetime.date) :
  map fst (ORM.field_choices Schema.models_py "Person" "shirt_size")
    = ["S"; "M"; "L"]
  /\ get_shirt_size_display (Person.mk n "S" fn ln bd) = "Small"
  /\ get_shirt_size_display (Person.mk n "M" fn ln bd) = "Medium"
  /\ get_shirt_size_display (Person.mk n "L" fn ln bd) = "Large".
Proof.
  repeat split; vm_compute; reflexivity.
Qed.

(** ** Default ordering *)

Section sorting.
Import ORM.
Variable le : row -> row -> bool.
Hypothesis le_total : forall a b, le a b = false -> le b a = true.

Lemma insert_by_perm (x : row) (l : list row) :
  Permutation (insert_by le x l) (x :: l).
Proof.
  induction l as [|y l IH]; simpl; [reflexivity|].
  destruct (le x y); [reflexivity|].
  rewrite IH. apply perm_swap.
Qed.

Lemma sort_by_perm (l : list row) : Permutation (sort_by le l) l.
Proof.
  induction l as [|x l IH]; simpl; [reflexivity|].
  rewrite insert_by_perm. now apply perm_skip.
Qed.

Lemma insert_by_hd (x a : row) (l : list row) :
  le a x = true -> HdRel (fun u v => le u v = true) a l ->
  HdRel (fun u v => le u v = true) a (insert_by le x l).
Proof.
  intros Hax Hl. destruct l as [|y l]; simpl; [now constructor|].
  destruct (le x y); constructor; [assumption|].
  now inversion Hl.
Qed.

Lemma insert_by_sorted (x : row) (l : list row) :
  Sorted (fun u v => le u v = true) l ->
  Sorted (fun u v => le u v = true) (insert_by le x l).
Proof.
  induction 1 as [|y l Hs IH Hhd]; simpl.
  - repeat constructor.
  - destruct (le x y) eqn:Hxy.
    + constructor; [now constructor | now constructor].
    + constructor; [exact IH|].
      apply insert_by_hd; [now apply le_total | exact Hhd].
Qed.

Lemma sort_by_sorted (l : list row) :
  Sorted (fun u v => le u v = true) (sort_by le l).
Proof.
  induction l as [|x l IH]; simpl; [constructor|].
  now apply insert_by_sorted.
Qed.

End sorting.

Section row_order.
Import ORM.

Lemma date_cmp_antisym (a b : datetime.date) :
  datetime.date_cmp b a = CompOpp (datetime.date_cmp a b).
Proof.
  unfold datetime.date_cmp.
  rewrite (Z.compare_antisym (datetime.year a)),
    (Z.compare_antisym (datetime.month a)), (Z.compare_antisym (datetime.day a)).
  destruct (datetime.year a ?= datetime.year b),
    (datetime.month a ?= datetime.month b),
    (datetime.day a ?= datetime.day b); reflexivity.
Qed.

Lemma scaled_cmp_antisym (base m1 e1 m2 e2 : Z) :
  scaled_cmp base m2 e2 m1 e1 = CompOpp (scaled_cmp base m1 e1 m2 e2).
Proof.
  unfold scaled_cmp. rewrite (Z.min_comm e2 e1). apply Z.compare_antisym.
Qed.

Lemma value_cmp_antisym (a b : value) :
  value_cmp b a = CompOpp (value_cmp a b).
Proof.
  destruct a, b; simpl; try reflexivity.
  - apply Z.compare_antisym.
  - apply String.compare_antisym.
  - apply date_cmp_antisym.
  - apply Z.compare_antisym.
  - apply scaled_cmp_antisym.
  - apply scaled_cmp_antisym.
Qed.

Lemma key_cmp_antisym (k : string) (a b : row) :
  key_cmp k b a = CompOpp (key_cmp k a b).
Proof.
  unfold key_cmp. destruct k as [|c f]; [apply value_cmp_antisym|].
  destruct (Ascii.eqb c "-"); [f_equal|]; apply value_cmp_antisym.
Qed.

Lemma row_cmp_antisym (keys : list string) (a b : row) :
  row_cmp keys b a = CompOpp (row_cmp keys a b).
Proof.
  induction keys as [|k keys IH]; simpl; [reflexivity|].
  rewrite (key_cmp_antisym k a b).
  destruct (key_cmp k a b); simpl; [exact IH | reflexivity | reflexivity].
Qed.

Lemma row_le_total (keys : list string) (a b : row) :
  row_le keys a b = false -> row_le keys b a = true.
Proof.
  unfold row_le. rewrite (row_cmp_antisym keys a b).
  destruct (row_cmp keys a b); simpl; congruence.
Qed.

Lemma sorted_map_int (f : row -> Z) (P : row -> Prop) (R : row -> row -> Prop)
  (l : list row) :
  (forall a b, P a -> P b -> R a b -> f a <= f b) ->
  Forall P l -> Sorted R l -> Sorted Z.le (map f l).
Proof.
  intros Hmono HP Hs. induction Hs as [|x l Hs IH Hhd]; simpl; [constructor|].
  inversion HP as [|? ? Px Pl]; subst.
  constructor; [now apply IH|].
  destruct Hhd as [|y l Hxy]; simpl; constructor.
  inversion Pl; subst. now apply Hmono.
Qed.

End row_order.

(** ** [Ox]: ordering by [horn_length] *)

Section ox.
Import ORM.

Lemma horn_le (a b : row) :
  is_int (col a "horn_length") = true ->
  is_int (col b "horn_length") = true ->
  row_le ["horn_length"] a b = true -> horn_length a <= horn_length b.
Proof.
  unfold row_le, horn_length; simpl.
  destruct (col a "horn_length"), (col b "horn_length"); try discriminate.
  intros _ _; simpl. destruct (Z.compare_spec z z0); try discriminate; lia.
Qed.

(** C7: [Ox] declares [ordering = ["horn_length"]], and retrieving the
    stored oxen without an explicit order gives them all, each once, in
    non-decreasing order of [horn_length]. *)
Theorem ox_default_ordering (db : list row) :
  forallb (fun r => is_int (col r "horn_length")) (rows_of db "Ox") = true ->
  ordering Schema.models_py "Ox" = ["horn_length"]
  /\ Permutation (all Schema.models_py db "Ox") (rows_of db "Ox")
  /\ map (fun r => col r "horn_length") (all Schema.models_py db "Ox")
     = map VInt (map horn_length (all Schema.models_py db "Ox"))
  /\ StronglySorted Z.le (map horn_length (all Schema.models_py db "Ox")).
Proof.
  intros Hint.
  assert (Hord : ordering Schema.models_py "Ox" = ["horn_length"])
    by reflexivity.
  unfold all. rewrite Hord.
  set (le := row_le ["horn_length"]).
  assert (Hperm := sort_by_perm le (rows_of db "Ox")).
  assert (Hall : Forall (fun r => is_int (col r "horn_length") = true)
                   (sort_by le (rows_of db "Ox"))).
  { rewrite List.Forall_forall. intros r Hr.
    rewrite forallb_forall in Hint. apply Hint.
    now apply (Permutation_in r Hperm). }
  repeat split; [exact Hperm | |].
  - clear Hperm. induction Hall as [|r l Hr _ IH]; simpl; [reflexivity|].
    rewrite IH. f_equal. unfold horn_length.
    destruct (col r "horn_length"); try discriminate. reflexivity.
  - apply Sorted_StronglySorted; [intros x y z; apply Z.le_trans|].
    apply (sorted_map_int horn_length
             (fun r => is_int (col r "horn_length") = true)
             (fun u v => le u v = true)).
    + intros a b Ha Hb. now apply horn_le.
    + exact Hall.
    + apply sort_by_sorted. apply row_le_total.
Qed.

Lemma ox_default_ordering_witness :
  map horn_length
    (all Schema.models_py
       [ mkrow "Ox" [("id", VInt 1); ("horn_length", VInt 5)];
         mkrow "Question" [("id", VInt 1)];
         mkrow "Ox" [("id", VInt 2); ("horn_length", VInt 2)];
         mkrow "Ox" [("id", VInt 3); ("horn_length", VInt 9)] ] "Ox")
  = [2; 5; 9]
  /\ StronglySorted Z.le [2; 5; 9].
Proof.
  split; [reflexivity|].
  refine (proj2 (proj2 (proj2 (ox_default_ordering
    [ mkrow "Ox" [("id", VInt 1); ("horn_length", VInt 5)];
      mkrow "Question" [("id", VInt 1)];
      mkrow "Ox" [("id", VInt 2); ("horn_length", VInt 2)];
      mkrow "Ox" [("id", VInt 3); ("horn_length", VInt 9)] ] _)))).
  reflexivity.
Defined.

End ox.

(** ** Rows and their attributes *)

Section attributes.
Import ORM.

Lemma assoc_set_eq {A} (k : string) (v : A) (l : list (string * A)) :
  assoc k (assoc_set k v l) = Some v.
Proof.
  induction l as [|[k' v'] l IH]; simpl.
  - now rewrite String.eqb_refl.
  - destruct (String.eqb k' k) eqn:E; simpl.
    + now rewrite String.eqb_refl.
    + now rewrite E.
Qed.

Lemma assoc_set_ne {A} (k k0 : string) (v : A) (l : list (string * A)) :
  k <> k0 -> assoc k0 (assoc_set k v l) = assoc k0 l.
Proof.
  intros Hne. induction l as [|[k' v'] l IH]; simpl.
  - destruct (String.eqb_spec k k0); [contradiction | reflexivity].
  - destruct (String.eqb_spec k' k) as [->|Hk]; simpl.
    + destruct (String.eqb_spec k k0); [contradiction | reflexivity].
    + destruct (String.eqb k' k0); [reflexivity | exact IH].
Qed.

Lemma col_setattr_eq (r : row) (f : string) (v : value) :
  col (setattr r f v) f = v.
Proof. unfold col, setattr; simpl. now rewrite assoc_set_eq. Qed.

Lemma col_setattr_ne (r : row) (f f0 : string) (v : value) :
  f <> f0 -> col (setattr r f v) f0 = col r f0.
Proof. intros Hne. unfold col, setattr; simpl. now rewrite assoc_set_ne. Qed.

Lemma resolves_In (ms : list Schema.model) (db : list row) (n : string)
  (v : value) :
  resolves ms db n v = true <-> exists r, In r db /\ rid ms r = (n, v).
Proof.
  unfold resolves. rewrite existsb_exists.
  split; intros [r [Hr Hid]]; exists r; split; try assumption.
  - now apply bool_decide_eq_true in Hid.
  - now apply bool_decide_eq_true.
Qed.

End attributes.

(** ** [Fruit]: the name is the primary key *)

Section fruit.
Import ORM.

(** C8, as worded, fails where the new name is taken: with a fruit
    stored under the new name, saving the renamed fruit updates that row
    and creates none; the table is as it was. *)
Lemma fruit_rename_creates_no_row :
  save Schema.models_py
    [ mkrow "Fruit" [("name", VStr "Apple")];
      mkrow "Fruit" [("name", VStr "Pear")] ]
    (setattr (mkrow "Fruit" [("name", VStr "Apple")]) "name" (VStr "Pear"))
  = Ok ([ mkrow "Fruit" [("name", VStr "Apple")];
          mkrow "Fruit" [("name", VStr "Pear")] ],
        mkrow "Fruit" [("name", VStr "Pear")])
  /\ length [ mkrow "Fruit" [("name", VStr "Apple")];
              mkrow "Fruit" [("name", VStr "Pear")] ] = 2%nat.
Proof. split; reflexivity. Qed.

(** C8, amended: [name] is the primary key of [Fruit]; giving a stored
    fruit another name and saving it succeeds and leaves both the row
    under the old name, as it was, and a row under the new name; every
    other row is kept.  A row is created when the new name was free: the
    table is then the old one with the renamed fruit inserted.  When the
    new name was taken, the row under it is the one updated and the
    table keeps its length. *)
Theorem fruit_rename_keeps_old_row (db : list row) (fruit : row)
  (new_name : string) :
  r_model fruit = "Fruit" ->
  In fruit db ->
  col fruit "name" <> VStr new_name ->
  pk_name Schema.models_py "Fruit" = "name"
  /\ exists db',
      save Schema.models_py db (setattr fruit "name" (VStr new_name))
        = Ok (db', setattr fruit "name" (VStr new_name))
      /\ In fruit db'
      /\ In (setattr fruit "name" (VStr new_name)) db'
      /\ (forall r, In r db ->
            rid Schema.models_py r <> ("Fruit", VStr new_name) -> In r db')
      /\ (resolves Schema.models_py db "Fruit" (VStr new_name) = false ->
          db' = (db ++ [setattr fruit "name" (VStr new_name)])%list)
      /\ (resolves Schema.models_py db "Fruit" (VStr new_name) = true ->
          length db' = length db).
Proof.
  intros Hmodel Hin Hne.
  split; [reflexivity|].
  set (renamed := setattr fruit "name" (VStr new_name)).
  assert (Hm : r_model renamed = "Fruit") by exact Hmodel.
  assert (Hcol : col renamed "name" = VStr new_name)
    by apply col_setattr_eq.
  assert (Hpk : pk Schema.models_py renamed = VStr new_name).
  { unfold pk, renamed; simpl. rewrite Hmodel.
    change (pk_name Schema.models_py "Fruit") with "name".
    apply col_setattr_eq. }
  assert (Hid : rid Schema.models_py renamed = ("Fruit", VStr new_name)).
  { unfold rid. rewrite Hpk. unfold renamed; simpl. now rewrite Hmodel. }
  assert (Hold : rid Schema.models_py fruit <> ("Fruit", VStr new_name)).
  { unfold rid, pk. rewrite Hmodel.
    change (pk_name Schema.models_py "Fruit") with "name". congruence. }
  clearbody renamed.
  assert (Hprep : prepare Schema.models_py db renamed = Ok renamed).
  { unfold prepare. rewrite Hpk, Hm. simpl.
    unfold types_ok, not_null_ok, row_ok. rewrite Hm. simpl.
    rewrite Hcol. reflexivity. }
  unfold save. rewrite Hprep. unfold mbind, result_bind.
  rewrite Hm, Hpk, Hid.
  destruct (resolves Schema.models_py db "Fruit" (VStr new_name)) eqn:Hres.
  - eexists; split; [reflexivity|].
    apply resolves_In in Hres. destruct Hres as [r0 [Hr0 Hid0]].
    repeat split.
    + apply in_map_iff. exists fruit. split; [|assumption].
      rewrite bool_decide_eq_false_2; [reflexivity | assumption].
    + apply in_map_iff. exists r0. split; [|assumption].
      rewrite bool_decide_eq_true_2; [reflexivity | assumption].
    + intros r Hr Hrid. apply in_map_iff. exists r. split; [|assumption].
      rewrite bool_decide_eq_false_2; [reflexivity | assumption].
    + discriminate.
    + intros _. apply length_map.
  - eexists; split; [reflexivity|].
    repeat split.
    + apply in_or_app; now left.
    + apply in_or_app; right; now left.
    + intros r Hr _. apply in_or_app; now left.
    + discriminate.
Qed.

Lemma fruit_rename_keeps_old_row_witness :
  save Schema.models_py [mkrow "Fruit" [("name", VStr "Apple")]]
    (setattr (mkrow "Fruit" [("name", VStr "Apple")]) "name" (VStr "Pear"))
  = Ok ([ mkrow "Fruit" [("name", VStr "Apple")];
          mkrow "Fruit" [("name", VStr "Pear")] ],
        mkrow "Fruit" [("name", VStr "Pear")]).
Proof.
  destruct (fruit_rename_keeps_old_row
              [mkrow "Fruit" [("name", VStr "Apple")]]
              (mkrow "Fruit" [("name", VStr "Apple")]) "Pear")
    as [_ [db' [Hsave _]]].
  - reflexivity.
  - simpl. now left.
  - simpl. discriminate.
  - reflexivity.
Defined.

End fruit.

(** ** Deletion *)

Section deletion.
Import ORM Schema.
Variable models : list model.

Lemma filter_nil_false {A} (f : A -> bool) (l : list A) :
  List.filter f l = [] -> forall x, In x l -> f x = false.
Proof.
  intros Hnil x Hx. destruct (f x) eqn:E; [|reflexivity].
  assert (Hin : In x (List.filter f l)) by (apply filter_In; auto).
  rewrite Hnil in Hin. destruct Hin.
Qed.

Lemma filter_negb_shorter {A} (f : A -> bool) (l : list A) :
  List.filter f l <> [] ->
  (length (List.filter (fun x => negb (f x)) l) < length l)%nat.
Proof.
  induction l as [|x l IH]; simpl; [congruence|].
  destruct (f x); simpl; intros Hne.
  - pose proof (List.filter_length_le (fun x => negb (f x)) l). lia.
  - specialize (IH Hne). lia.
Qed.

Lemma collect_keeps (fuel : nat) (seen : list (string * value))
  (rest : list row) (x : string * value) :
  x ∈ seen -> x ∈ collect models fuel seen rest.
Proof.
  revert seen rest. induction fuel as [|n IH]; intros seen rest Hx; simpl;
    [assumption|].
  destruct (List.filter (points_to models seen) rest) eqn:Hhit; [assumption|].
  apply IH. apply elem_of_app. now left.
Qed.

(** The collected set is closed: a row pointing into it belongs to it. *)
Lemma collect_closed (db : list row) (fuel : nat)
  (seen : list (string * value)) (rest : list row) :
  (forall r, In r db -> In r rest \/ rid models r ∈ seen) ->
  (length rest <= fuel)%nat ->
  forall r, In r db ->
    points_to models (collect models fuel seen rest) r = true ->
    rid models r ∈ collect models fuel seen rest.
Proof.
  revert seen rest. induction fuel as [|n IH]; intros seen rest Hcov Hlen r Hr;
    cbn [collect].
  - destruct rest; [|simpl in Hlen; lia].
    intros _. destruct (Hcov r Hr) as [[]|]; assumption.
  - destruct (List.filter (points_to models seen) rest) as [|h hit] eqn:Hhit.
    + intros Hpt. destruct (Hcov r Hr) as [Hrest|]; [|assumption].
      rewrite (filter_nil_false _ _ Hhit r Hrest) in Hpt. discriminate.
    + rewrite <- Hhit. apply IH; [|
        |assumption].
      * intros r0 Hr0. destruct (Hcov r0 Hr0) as [Hrest|Hseen].
        -- destruct (points_to models seen r0) eqn:Hpt.
           ++ right. apply elem_of_app. right.
              apply list_elem_of_In, in_map, filter_In. auto.
           ++ left. apply filter_In. rewrite Hpt. auto.
        -- right. apply elem_of_app. now left.
      * assert (Hlt := filter_negb_shorter (points_to models seen) rest).
        rewrite Hhit in Hlt. specialize (Hlt ltac:(discriminate)). lia.
Qed.

(** Nothing points to the seeds: the seeds alone are collected. *)
Lemma collect_seeds_only (fuel : nat) (seen : list (string * value))
  (rest : list row) :
  (forall r, In r rest -> points_to models seen r = false) ->
  collect models fuel seen rest = seen.
Proof.
  intros Hnone. destruct fuel as [|n]; simpl; [reflexivity|].
  destruct (List.filter (points_to models seen) rest) as [|h hit] eqn:Hhit;
    [reflexivity|].
  assert (Hh : In h (List.filter (points_to models seen) rest))
    by (rewrite Hhit; now left).
  apply filter_In in Hh. destruct Hh as [Hh Hpt].
  rewrite (Hnone h Hh) in Hpt. discriminate.
Qed.

Lemma delete_objs_In (db : list row) (targets : list (string * value))
  (r : row) :
  In r (delete_objs models db targets) <->
  In r db /\ rid models r ∉ collect models (length db) targets db.
Proof.
  unfold delete_objs. rewrite filter_In, negb_true_iff, bool_decide_eq_false.
  reflexivity.
Qed.

Lemma delete_objs_target (db : list row) (targets : list (string * value))
  (r : row) :
  rid models r ∈ targets -> ~ In r (delete_objs models db targets).
Proof.
  intros Ht Hin. apply delete_objs_In in Hin. destruct Hin as [_ Hnot].
  apply Hnot. now apply collect_keeps.
Qed.

Lemma delete_objs_closed (db : list row) (targets : list (string * value))
  (r : row) :
  In r db ->
  points_to models (collect models (length db) targets db) r = true ->
  ~ In r (delete_objs models db targets).
Proof.
  intros Hr Hpt Hin. apply delete_objs_In in Hin. destruct Hin as [_ Hnot].
  apply Hnot. apply (collect_closed db); auto.
Qed.

Lemma points_to_mono (seen seen' : list (string * value)) (r : row) :
  (forall x, x ∈ seen -> x ∈ seen') ->
  points_to models seen r = true -> points_to models seen' r = true.
Proof.
  intros Hsub. unfold points_to. rewrite !existsb_exists.
  intros [k [Hk H]]. exists k. split; [assumption|].
  apply andb_true_iff in H. destruct H as [H1 H2].
  apply andb_true_iff. split; [assumption|].
  apply bool_decide_eq_true in H2. apply bool_decide_eq_true. auto.
Qed.

(** Only seeds and rows pointing to a collected row are collected. *)
Lemma collect_sound (fuel : nat) (seen : list (string * value))
  (rest : list row) (x : string * value) :
  x ∈ collect models fuel seen rest ->
  x ∈ seen \/
  exists r, In r rest /\ rid models r = x
            /\ points_to models (collect models fuel seen rest) r = true.
Proof.
  revert seen rest. induction fuel as [|n IH]; intros seen rest;
    cbn [collect]; [auto|].
  destruct (List.filter (points_to models seen) rest) as [|h hit] eqn:Hhit;
    [auto|].
  rewrite <- Hhit. intros Hx. apply IH in Hx. destruct Hx as [Hx|Hx].
  - apply elem_of_app in Hx. destruct Hx as [Hx|Hx]; [now left|]. right.
    apply list_elem_of_In, in_map_iff in Hx. destruct Hx as [r [Hid Hr]].
    apply filter_In in Hr. destruct Hr as [Hr Hpt].
    exists r. repeat split; try assumption.
    apply (points_to_mono seen); [|assumption].
    intros y Hy. apply collect_keeps. apply elem_of_app. now left.
  - right. destruct Hx as [r [Hr [Hid Hpt]]].
    apply filter_In in Hr. destruct Hr as [Hr _]. eauto.
Qed.

(** A row is deleted only if it is a target or points, through a
    cascading foreign key, to a deleted row. *)
Lemma delete_objs_only_dependents (db : list row)
  (targets : list (string * value)) (r : row) :
  In r db -> ~ In r (delete_objs models db targets) ->
  rid models r ∈ targets \/
  exists r', In r' db /\ rid models r' = rid models r
             /\ points_to models (collect models (length db) targets db) r'
                = true.
Proof.
  intros Hr Hgone.
  destruct (decide (rid models r ∈ collect models (length db) targets db))
    as [Hin|Hout].
  - now apply collect_sound in Hin.
  - exfalso. apply Hgone. apply delete_objs_In. auto.
Qed.

Lemma row_ok_spec (db : list row) (r : row) :
  row_ok models db r = true <->
  forall k, In k (fks models (r_model r)) ->
    if bool_decide (col r (fk_field k) = VNull) then fk_null k = true
    else resolves models db (fk_to k) (col r (fk_field k)) = true.
Proof.
  unfold row_ok. rewrite forallb_forall.
  split; intros H k Hk; specialize (H k Hk);
    destruct (bool_decide (col r (fk_field k) = VNull)); assumption.
Qed.

Hypothesis all_cascade :
  forall n k, In k (fks models n) -> fk_on_delete k = CASCADE.

(** Deletion keeps every foreign key that is left resolved. *)
Lemma delete_objs_integrity (db : list row) (targets : list (string * value)) :
  integrity models db = true ->
  integrity models (delete_objs models db targets) = true.
Proof.
  unfold integrity. rewrite !forallb_forall. intros Hint r Hr.
  pose proof Hr as Hr'. apply delete_objs_In in Hr'. destruct Hr' as [Hdb Hkeep].
  specialize (Hint r Hdb). rewrite row_ok_spec in Hint. apply row_ok_spec.
  intros k Hk. specialize (Hint k Hk).
  destruct (bool_decide (col r (fk_field k) = VNull)) eqn:Hnull; [assumption|].
  apply resolves_In in Hint. destruct Hint as [r' [Hr'db Hid]].
  apply resolves_In. exists r'. split; [|assumption].
  apply delete_objs_In. split; [assumption|].
  intros Hdoomed. apply Hkeep. apply (collect_closed db); auto.
  unfold points_to. apply existsb_exists. exists k. split; [assumption|].
  rewrite (all_cascade _ _ Hk), Hnull. simpl.
  apply bool_decide_eq_true. now rewrite <- Hid.
Qed.

End deletion.

(** ** Cascading deletion in [models.py] *)

Section cascade.
Import ORM Schema.

Lemma fks_cascade (ms : list model) (n : string) (k : foreign_key) :
  all_foreign_keys_cascade (tables ms) = true ->
  In k (fks ms n) -> fk_on_delete k = CASCADE.
Proof.
  unfold all_foreign_keys_cascade, fks, table, find_model.
  rewrite forallb_forall. intros Hall Hk.
  destruct (find _ (tables ms)) as [m|] eqn:Hm; [|destruct Hk].
  apply find_some in Hm. destruct Hm as [Hm _].
  specialize (Hall m Hm). rewrite forallb_forall in Hall.
  specialize (Hall k Hk). now destruct (fk_on_delete k).
Qed.

Lemma models_py_cascade (n : string) (k : foreign_key) :
  In k (fks models_py n) -> fk_on_delete k = CASCADE.
Proof. apply fks_cascade. reflexivity. Qed.

(** C4: every foreign key of the schema is declared with cascading
    deletion; deleting rows removes them; deleting a question removes
    every choice whose [question] refers to it; and after a deletion
    every foreign key of every row left refers to a row that is there. *)
Theorem cascade_delete (db : list row) (targets : list (string * value)) :
  integrity models_py db = true ->
  all_foreign_keys_cascade (tables models_py) = true
  /\ (forall r, In r db -> rid models_py r ∈ targets ->
        ~ In r (delete_objs models_py db targets))
  /\ (forall q c, In c db -> r_model c = "Choice" -> col c "question" = q ->
        ~ In c (delete models_py db ("Question", q)))
  /\ integrity models_py (delete_objs models_py db targets) = true.
Proof.
  intros Hint. split; [reflexivity|]. split; [|split].
  - intros r _ Ht. now apply delete_objs_target.
  - intros q c Hc Hmodel Hq. apply delete_objs_closed; [assumption|].
    unfold integrity in Hint. rewrite forallb_forall in Hint.
    specialize (Hint c Hc). rewrite row_ok_spec in Hint.
    unfold points_to. rewrite Hmodel in *.
    specialize (Hint (mkfk "question" "Question" CASCADE false)
                  ltac:(now left)).
    simpl in Hint. simpl. rewrite Hq in *.
    destruct (bool_decide (q = VNull)); [discriminate|]. simpl.
    rewrite bool_decide_eq_true_2; [reflexivity|].
    apply collect_keeps. now left.
  - apply delete_objs_integrity; [|assumption].
    exact models_py_cascade.
Qed.

Lemma cascade_delete_witness :
  delete models_py
    [ mkrow "Question" [("id", VInt 1); ("question_text", VStr "What's new?")];
      mkrow "Question" [("id", VInt 2); ("question_text", VStr "What's up?")];
      mkrow "Choice" [("id", VInt 1); ("question", VInt 1);
                      ("choice_text", VStr "Not much"); ("votes", VInt 0)];
      mkrow "Choice" [("id", VInt 2); ("question", VInt 2);
                      ("choice_text", VStr "The sky"); ("votes", VInt 0)];
      mkrow "Choice" [("id", VInt 3); ("question", VInt 1);
                      ("choice_text", VStr "Just hacking again");
                      ("votes", VInt 0)] ]
    ("Question", VInt 1)
  = [ mkrow "Question" [("id", VInt 2); ("question_text", VStr "What's up?")];
      mkrow "Choice" [("id", VInt 2); ("question", VInt 2);
                      ("choice_text", VStr "The sky"); ("votes", VInt 0)] ]
  /\ integrity models_py
       (delete_objs models_py
          [ mkrow "Question"
              [("id", VInt 1); ("question_text", VStr "What's new?")];
            mkrow "Question"
              [("id", VInt 2); ("question_text", VStr "What's up?")];
            mkrow "Choice" [("id", VInt 1); ("question", VInt 1);
                            ("choice_text", VStr "Not much"); ("votes", VInt 0)];
            mkrow "Choice" [("id", VInt 2); ("question", VInt 2);
                            ("choice_text", VStr "The sky"); ("votes", VInt 0)];
            mkrow "Choice" [("id", VInt 3); ("question", VInt 1);
                            ("choice_text", VStr "Just hacking again");
                            ("votes", VInt 0)] ]
          [("Question", VInt 1)]) = true.
Proof.
  split; [reflexivity|].
  refine (proj2 (proj2 (proj2 (cascade_delete _ _ _)))). reflexivity.
Defined.

End cascade.

(** ** Invariants of the stored rows *)

Section invariants.
Import ORM Schema.
Variable models : list model.
Hypothesis all_cascade :
  forall n k, In k (fks models n) -> fk_on_delete k = CASCADE.

Lemma NoDup_map_filter {A B} (f : A -> B) (keep : A -> bool) (l : list A) :
  NoDup (map f l) -> NoDup (map f (List.filter keep l)).
Proof.
  induction l as [|x l IH]; simpl; [constructor|].
  intros Hnd. apply NoDup_cons in Hnd. destruct Hnd as [Hx Hnd].
  destruct (keep x); simpl; [|now apply IH].
  apply NoDup_cons. split; [|now apply IH].
  intros Hin. apply Hx.
  apply list_elem_of_In, in_map_iff in Hin. destruct Hin as [y [Hy Hin]].
  apply filter_In in Hin. destruct Hin as [Hin _].
  apply list_elem_of_In, in_map_iff. exists y. auto.
Qed.

Lemma row_ok_mono (db db' : list row) (r : row) :
  (forall n v, resolves models db n v = true ->
               resolves models db' n v = true) ->
  row_ok models db r = true -> row_ok models db' r = true.
Proof.
  intros Hmono. rewrite !row_ok_spec. intros H k Hk. specialize (H k Hk).
  destruct (bool_decide (col r (fk_field k) = VNull)); auto.
Qed.

Lemma resolves_app (db l : list row) (n : string) (v : value) :
  resolves models db n v = true -> resolves models (db ++ l) n v = true.
Proof.
  unfold resolves. rewrite existsb_app. intros ->. reflexivity.
Qed.

Lemma rid_replace (inst r : row) :
  rid models (if bool_decide (rid models r = rid models inst) then inst else r)
  = rid models r.
Proof.
  destruct (bool_decide (rid models r = rid models inst)) eqn:E;
    [|reflexivity].
  apply bool_decide_eq_true in E. now symmetry.
Qed.

Lemma map_rid_replace (inst : row) (db : list row) :
  map (rid models)
    (map (fun r =>
       if bool_decide (rid models r = rid models inst) then inst else r) db)
  = map (rid models) db.
Proof.
  rewrite map_map. apply map_ext. intros r. apply rid_replace.
Qed.

Lemma resolves_ids (db db' : list row) (n : string) (v : value) :
  map (rid models) db = map (rid models) db' ->
  resolves models db n v = resolves models db' n v.
Proof.
  intros Hids. unfold resolves.
  change (existsb (fun r' => bool_decide (rid models r' = (n, v))) db)
    with (existsb (fun r' => (fun i => bool_decide (i = (n, v))) (rid models r')) db).
  change (existsb (fun r' => bool_decide (rid models r' = (n, v))) db')
    with (existsb (fun r' => (fun i => bool_decide (i = (n, v))) (rid models r')) db').
  assert (Hex : forall l, existsb (fun r' => (fun i => bool_decide (i = (n, v)))
                            (rid models r')) l
                = existsb (fun i => bool_decide (i = (n, v)))
                    (map (rid models) l)).
  { induction l as [|x l IH]; simpl; [reflexivity | now rewrite IH]. }
  now rewrite !Hex, Hids.
Qed.

Lemma consistent_insert (db : list row) (inst : row) :
  consistent models db -> row_ok models db inst = true ->
  resolves models db (r_model inst) (pk models inst) = false ->
  consistent models (db ++ [inst]).
Proof.
  intros [Hint Hnd] Hok Hfresh. split.
  - unfold integrity in *. rewrite forallb_app. apply andb_true_iff. split.
    + rewrite forallb_forall in *. intros r Hr.
      apply (row_ok_mono db); [intros; now apply resolves_app | auto].
    + simpl. rewrite andb_true_r.
      apply (row_ok_mono db); [intros; now apply resolves_app | auto].
  - rewrite map_app; simpl. apply NoDup_app. split; [assumption|]. split.
    + intros i Hi Hi'. apply list_elem_of_singleton in Hi'. subst i.
      apply list_elem_of_In, in_map_iff in Hi. destruct Hi as [r [Hid Hr]].
      assert (Hres : resolves models db (r_model inst) (pk models inst) = true).
      { apply resolves_In. exists r. auto. }
      congruence.
    + apply NoDup_singleton.
Qed.

Lemma consistent_update (db : list row) (inst : row) :
  consistent models db -> row_ok models db inst = true ->
  consistent models
    (map (fun r =>
       if bool_decide (rid models r = rid models inst) then inst else r) db).
Proof.
  intros [Hint Hnd] Hok. split.
  - unfold integrity in *. rewrite forallb_forall in *. intros r Hr.
    apply in_map_iff in Hr. destruct Hr as [r0 [<- Hr0]].
    apply (row_ok_mono db).
    + intros n v Hres.
      now rewrite <- (resolves_ids db _ n v (eq_sym (map_rid_replace inst db))).
    + destruct (bool_decide (rid models r0 = rid models inst)); auto.
  - now rewrite map_rid_replace.
Qed.

(** The three checks an instance passes before it is written. *)
Lemma checks_passed (db : list row) (i r : row) :
  (if negb (types_ok models i) then Raise ValueError
   else if negb (not_null_ok models i) then Raise IntegrityError
   else if row_ok models db i then Ok i
   else Raise IntegrityError) = Ok r ->
  r = i /\ conforms models i = true /\ row_ok models db i = true.
Proof.
  unfold conforms.
  destruct (types_ok models i); simpl; [|discriminate].
  destruct (not_null_ok models i); simpl; [|discriminate].
  destruct (row_ok models db i); [|discriminate].
  intros [= <-]. auto.
Qed.

(** What [prepare] hands on: a conforming row of the same model, with a
    primary key, whose foreign keys resolve; the instance itself when it
    had a key, else the instance with the next [id]. *)
Lemma prepare_inv (db : list row) (inst inst' : row) :
  prepare models db inst = Ok inst' ->
  conforms models inst' = true
  /\ row_ok models db inst' = true
  /\ r_model inst' = r_model inst
  /\ pk models inst' <> VNull
  /\ (pk models inst <> VNull -> inst' = inst)
  /\ (pk models inst = VNull ->
      explicit_pk models (r_model inst) = None
      /\ inst' = setattr inst "id" (VInt (next_id models db (r_model inst)))).
Proof.
  unfold prepare. intros H.
  destruct (table models (r_model inst)); [|discriminate].
  destruct (bool_decide (pk models inst = VNull)) eqn:Hnull.
  - apply bool_decide_eq_true in Hnull.
    destruct (explicit_pk models (r_model inst)) eqn:Hpk; [discriminate|].
    apply checks_passed in H. destruct H as [-> [Hc Hr]].
    repeat split; try assumption; try congruence.
    unfold pk, pk_name. simpl. rewrite Hpk. simpl.
    rewrite col_setattr_eq. discriminate.
  - apply bool_decide_eq_false in Hnull.
    apply checks_passed in H. destruct H as [-> [Hc Hr]].
    repeat split; try assumption; congruence.
Qed.

Lemma prepare_ok (db : list row) (inst inst' : row) :
  prepare models db inst = Ok inst' -> row_ok models db inst' = true.
Proof. intros H. now apply prepare_inv in H. Qed.

Lemma save_consistent (db db' : list row) (inst inst' : row) :
  consistent models db -> save models db inst = Ok (db', inst') -> consistent models db'.
Proof.
  intros Hc. unfold save.
  destruct (prepare models db inst) as [i|] eqn:Hp; [|discriminate].
  apply prepare_ok in Hp. simpl.
  destruct (resolves models db (r_model i) (pk models i)) eqn:Hres;
    intros H; injection H as <- <-.
  - now apply consistent_update.
  - now apply consistent_insert.
Qed.

Lemma create_consistent (today : datetime.date) (db db' : list row)
  (kwargs inst' : row) :
  consistent models db -> create models today db kwargs = Ok (db', inst') ->
  consistent models db'.
Proof.
  intros Hc. unfold create.
  destruct (prepare models db _) as [i|] eqn:Hp; [|discriminate].
  apply prepare_ok in Hp. simpl.
  destruct (resolves models db (r_model i) (pk models i)) eqn:Hres;
    [discriminate|].
  intros H; injection H as <- <-. now apply consistent_insert.
Qed.

Lemma delete_objs_consistent (db : list row)
  (targets : list (string * value)) :
  consistent models db -> consistent models (delete_objs models db targets).
Proof.
  intros [Hint Hnd]. split.
  - now apply delete_objs_integrity.
  - unfold delete_objs. now apply NoDup_map_filter.
Qed.

Lemma add_consistent (today : datetime.date) (rel : relation) (g : value)
  (ps : list value) (td : list (string * value)) (db db' : list row) :
  consistent models db -> add models today db rel g ps td = Ok db' ->
  consistent models db'.
Proof.
  revert db. induction ps as [|p ps IH]; intros db Hc; simpl.
  - now intros [= <-].
  - destruct (bool_decide (g = VNull) || bool_decide (p = VNull));
      [discriminate|].
    destruct (linked db rel g p); [now apply IH|].
    destruct (create models today db _) as [[db1 i]|] eqn:Hcr; [|discriminate].
    simpl. apply IH. now apply (create_consistent _ _ _ _ _ Hc Hcr).
Qed.

Lemma remove_consistent (rel : relation) (g : value) (ps : list value)
  (db db' : list row) :
  consistent models db -> remove models db rel g ps = Ok db' -> consistent models db'.
Proof.
  intros Hc. unfold remove. destruct (bool_decide (g = VNull)); [discriminate|].
  intros [= <-]. now apply delete_objs_consistent.
Qed.

Lemma clear_consistent (rel : relation) (g : value) (db db' : list row) :
  consistent models db -> clear models db rel g = Ok db' -> consistent models db'.
Proof.
  intros Hc. unfold clear. destruct (bool_decide (g = VNull)); [discriminate|].
  intros [= <-]. now apply delete_objs_consistent.
Qed.

Lemma step_consistent (db db' : list row) :
  consistent models db -> step models db db' -> consistent models db'.
Proof.
  intros Hc Hstep. destruct Hstep.
  - eapply save_consistent; eauto.
  - eapply create_consistent; eauto.
  - now apply delete_objs_consistent.
  - eapply add_consistent; eauto.
  - unfold set_ in *.
    destruct (remove models db rel g _) as [db1|] eqn:Hrm; [|discriminate].
    eapply add_consistent; [|eassumption].
    eapply remove_consistent; eauto.
  - eapply remove_consistent; eauto.
  - eapply clear_consistent; eauto.
  - unfold create_related in *.
    destruct (bool_decide (g = VNull)); [discriminate|].
    destruct (create models today db kwargs) as [[db1 i]|] eqn:Hcr;
      [|discriminate].
    unfold mbind, result_bind in *.
    destruct (add models today db1 rel g [pk models i] td) as [db2|] eqn:Hadd;
      [|discriminate].
    assert (db2 = db') by congruence. subst db2.
    eapply add_consistent; [|eassumption].
    eapply create_consistent; eauto.
Qed.

Lemma reachable_consistent (db : list row) :
  reachable models db -> consistent models db.
Proof.
  induction 1 as [|db db' _ IH Hstep].
  - split; [reflexivity | constructor].
  - now apply (step_consistent db).
Qed.

(** Every stored row conforms to its declaration. *)
Lemma typed_In (db : list row) :
  typed models db = true <-> forall r, In r db -> conforms models r = true.
Proof. unfold typed. apply forallb_forall. Qed.

Lemma save_typed (db db' : list row) (inst inst' : row) :
  typed models db = true -> save models db inst = Ok (db', inst') ->
  typed models db' = true.
Proof.
  rewrite !typed_In. intros Ht. unfold save.
  destruct (prepare models db inst) as [i|] eqn:Hp; [|discriminate].
  apply prepare_inv in Hp. destruct Hp as [Hc _]. simpl.
  destruct (resolves models db (r_model i) (pk models i));
    intros H; injection H as <- <-; intros r Hr.
  - apply in_map_iff in Hr. destruct Hr as [r0 [<- Hr0]].
    destruct (bool_decide (rid models r0 = rid models i)); auto.
  - apply in_app_or in Hr. destruct Hr as [Hr|[<-|[]]]; auto.
Qed.

Lemma create_typed (today : datetime.date) (db db' : list row)
  (kwargs inst' : row) :
  typed models db = true -> create models today db kwargs = Ok (db', inst') ->
  typed models db' = true.
Proof.
  rewrite !typed_In. intros Ht. unfold create.
  destruct (prepare models db _) as [i|] eqn:Hp; [|discriminate].
  apply prepare_inv in Hp. destruct Hp as [Hc _]. simpl.
  destruct (resolves models db (r_model i) (pk models i)); [discriminate|].
  intros H; injection H as <- <-; intros r Hr.
  apply in_app_or in Hr. destruct Hr as [Hr|[<-|[]]]; auto.
Qed.

Lemma delete_objs_typed (db : list row) (targets : list (string * value)) :
  typed models db = true -> typed models (delete_objs models db targets) = true.
Proof.
  rewrite !typed_In. intros Ht r Hr. apply delete_objs_In in Hr.
  apply Ht, Hr.
Qed.

Lemma add_typed (today : datetime.date) (rel : relation) (g : value)
  (ps : list value) (td : list (string * value)) (db db' : list row) :
  typed models db = true -> add models today db rel g ps td = Ok db' ->
  typed models db' = true.
Proof.
  revert db. induction ps as [|p ps IH]; intros db Ht; simpl.
  - now intros [= <-].
  - destruct (bool_decide (g = VNull) || bool_decide (p = VNull));
      [discriminate|].
    destruct (linked db rel g p); [now apply IH|].
    destruct (create models today db _) as [[db1 i]|] eqn:Hcr; [|discriminate].
    simpl. apply IH. now apply (create_typed _ _ _ _ _ Ht Hcr).
Qed.

Lemma step_typed (db db' : list row) :
  typed models db = true -> step models db db' -> typed models db' = true.
Proof.
  intros Ht Hstep. destruct Hstep.
  - eapply save_typed; eauto.
  - eapply create_typed; eauto.
  - now apply delete_objs_typed.
  - eapply add_typed; eauto.
  - unfold set_, remove in *.
    destruct (bool_decide (g = VNull)); [discriminate|].
    eapply add_typed; [|eassumption]. now apply delete_objs_typed.
  - unfold remove in *. destruct (bool_decide (g = VNull)); [discriminate|].
    match goal with H : Ok _ = Ok _ |- _ => injection H as <- end.
    now apply delete_objs_typed.
  - unfold clear in *. destruct (bool_decide (g = VNull)); [discriminate|].
    match goal with H : Ok _ = Ok _ |- _ => injection H as <- end.
    now apply delete_objs_typed.
  - unfold create_related in *.
    destruct (bool_decide (g = VNull)); [discriminate|].
    destruct (create models today db kwargs) as [[db1 i]|] eqn:Hcr;
      [|discriminate].
    unfold mbind, result_bind in *.
    destruct (add models today db1 rel g [pk models i] td) as [db2|] eqn:Hadd;
      [|discriminate].
    assert (db2 = db') by congruence. subst db2.
    eapply add_typed; [|eassumption].
    eapply create_typed; eauto.
Qed.

Lemma reachable_typed (db : list row) :
  reachable models db -> typed models db = true.
Proof.
  induction 1 as [|db db' _ IH Hstep]; [reflexivity|].
  now apply (step_typed db).
Qed.

End invariants.

(** ** [Group.members] through [Membership] *)

Section membership.
Import ORM Schema.

Lemma fks_forall (P : foreign_key -> bool) (ms : list model) (n : string)
  (k : foreign_key) :
  forallb (fun m => forallb P (foreign_keys m)) (tables ms) = true ->
  In k (fks ms n) -> P k = true.
Proof.
  unfold fks, table, find_model. rewrite forallb_forall. intros Hall Hk.
  destruct (find _ (tables ms)) as [m|] eqn:Hm; [|destruct Hk].
  apply find_some in Hm. destruct Hm as [Hm _].
  specialize (Hall m Hm). rewrite forallb_forall in Hall. now apply Hall.
Qed.

(** No foreign key of the schema refers to [Membership]. *)
Lemma nothing_refers_to_membership (n : string) (k : foreign_key) :
  In k (fks models_py n) -> fk_to k <> "Membership".
Proof.
  intros Hk Heq.
  assert (H := fks_forall (fun k => negb (String.eqb (fk_to k) "Membership"))
                 models_py n k eq_refl Hk).
  simpl in H. rewrite Heq in H. discriminate.
Qed.

Lemma links_In (db : list row) (rel : relation) (g : value) (m : row) :
  In m (links db rel g) <->
  In m db /\ r_model m = through rel /\ col m (source_field rel) = g.
Proof.
  unfold links. rewrite filter_In, andb_true_iff, String.eqb_eq,
    bool_decide_eq_true. reflexivity.
Qed.

Lemma related_In (ms : list model) (db : list row) (rel : relation)
  (g : value) (r : row) :
  In r (related ms db rel g) <->
  exists m, In m (links db rel g) /\ In r db
            /\ rid ms r = (target_model rel, col m (target_field rel)).
Proof.
  unfold related. split.
  - intros Hr. apply (Permutation_in r (sort_by_perm _ _)) in Hr.
    apply in_flat_map in Hr. destruct Hr as [m [Hm Hr]].
    apply filter_In in Hr. destruct Hr as [Hr Hid].
    apply bool_decide_eq_true in Hid. eauto.
  - intros [m [Hm [Hr Hid]]].
    apply (Permutation_in r (Permutation_sym (sort_by_perm _ _))).
    apply in_flat_map. exists m. split; [assumption|].
    apply filter_In. split; [assumption | now apply bool_decide_eq_true].
Qed.

Lemma NoDup_map_eq {A B} (f : A -> B) (l : list A) (a b : A) :
  NoDup (map f l) -> In a l -> In b l -> f a = f b -> a = b.
Proof.
  induction l as [|x l IH]; simpl; [tauto|].
  intros Hnd Ha Hb Hf. apply NoDup_cons in Hnd. destruct Hnd as [Hx Hnd].
  destruct Ha as [->|Ha], Hb as [->|Hb]; auto.
  - exfalso. apply Hx. rewrite Hf. apply list_elem_of_In. now apply in_map.
  - exfalso. apply Hx. rewrite <- Hf. apply list_elem_of_In. now apply in_map.
Qed.

Lemma filter_all_false {A} (f : A -> bool) (l : list A) :
  (forall x, In x l -> f x = false) -> List.filter f l = [].
Proof.
  induction l as [|x l IH]; simpl; [reflexivity|]. intros H.
  rewrite (H x (or_introl eq_refl)). apply IH. intros y Hy. apply H. now right.
Qed.

(** Clearing removes the link rows of the group and nothing else. *)
Lemma clear_rows (db : list row) (g : value) (r : row) :
  NoDup (map (rid models_py) db) ->
  In r (delete_objs models_py db
          (map (rid models_py) (links db Group_members g))) <->
  In r db /\ ~ (r_model r = "Membership" /\ col r "group" = g).
Proof.
  intros Hnd. rewrite delete_objs_In.
  rewrite collect_seeds_only.
  - split; intros [Hr Hnot]; (split; [assumption|]).
    + intros [Hm Hg]. apply Hnot. apply list_elem_of_In, in_map.
      apply links_In. auto.
    + intros Hin. apply list_elem_of_In, in_map_iff in Hin.
      destruct Hin as [m [Hid Hm]]. apply links_In in Hm.
      destruct Hm as [Hm [Hmodel Hg]].
      assert (m = r) by (apply (NoDup_map_eq (rid models_py) db); auto).
      subst m. apply Hnot. auto.
  - intros r0 _. unfold points_to.
    destruct (existsb _ _) eqn:E; [|reflexivity]. exfalso.
    apply existsb_exists in E. destruct E as [k [Hk E]].
    apply andb_true_iff in E. destruct E as [_ E].
    apply bool_decide_eq_true, list_elem_of_In, in_map_iff in E.
    destruct E as [m [Hid Hm]]. apply links_In in Hm.
    destruct Hm as [_ [Hmodel _]].
    apply (nothing_refers_to_membership _ _ Hk).
    unfold rid in Hid. injection Hid as Hid _. now rewrite <- Hid.
Qed.

(** What a conforming row holds in one of its columns. *)
Lemma conforms_column (ms : list model) (r : row) (f : field) :
  conforms ms r = true -> In f (columns ms (r_model r)) ->
  (col r (f_name f) = VNull -> f_null f = true)
  /\ (col r (f_name f) <> VNull ->
      kind_ok ms (f_kind f) (col r (f_name f)) = true).
Proof.
  unfold conforms, types_ok, not_null_ok. intros Hc Hf.
  apply andb_true_iff in Hc. destruct Hc as [Ht Hn].
  apply andb_true_iff in Ht. destruct Ht as [Ht _].
  rewrite forallb_forall in Ht, Hn.
  specialize (Ht f Hf). specialize (Hn f Hf). split.
  - intros Hnull. rewrite Hnull in Hn.
    rewrite bool_decide_eq_true_2 in Hn by reflexivity.
    simpl in Hn. now rewrite orb_false_r in Hn.
  - intros Hset. now rewrite bool_decide_eq_false_2 in Ht by assumption.
Qed.

(** A stored membership has its join date and its invite reason. *)
Lemma membership_attributes (m : row) :
  conforms models_py m = true -> r_model m = "Membership" ->
  (exists d, col m "date_joined" = VDate d)
  /\ (exists s, col m "invite_reason" = VStr s).
Proof.
  intros Hc Hmodel. split.
  - destruct (conforms_column models_py m (fld "date_joined" DateField) Hc)
      as [Hnull Hkind]; [rewrite Hmodel; simpl; tauto|].
    simpl in Hnull, Hkind.
    destruct (col m "date_joined") as [| | |d| | |];
      try (specialize (Hkind ltac:(discriminate)); discriminate).
    + specialize (Hnull eq_refl). discriminate.
    + eauto.
  - destruct (conforms_column models_py m (fld "invite_reason" CharField) Hc)
      as [Hnull Hkind]; [rewrite Hmodel; simpl; tauto|].
    simpl in Hnull, Hkind.
    destruct (col m "invite_reason") as [| |s| | | |];
      try (specialize (Hkind ltac:(discriminate)); discriminate).
    + specialize (Hnull eq_refl). discriminate.
    + eauto.
Qed.

(** C5: [Group.members] goes through [Membership], and in every state
    reached by saving, creating, deleting, adding, setting, removing and
    clearing, the persons that the group's [members] yields are exactly
    those that some [Membership] row links to the group, a row that has
    its [date_joined] and its [invite_reason]; clearing the members of a
    group deletes its [Membership] rows, and only them. *)
Theorem members_are_membership_rows (db : list row) (p g : value) :
  reachable models_py db ->
  m2m models_py "Group" "members" = Some Group_members
  /\ ((exists r, In r (related models_py db Group_members g)
                 /\ pk models_py r = p)
      <-> (exists m, In m db /\ r_model m = "Membership"
                     /\ col m "person" = p /\ col m "group" = g
                     /\ (exists d, col m "date_joined" = VDate d)
                     /\ (exists s, col m "invite_reason" = VStr s)))
  /\ (g <> VNull ->
      exists db', clear models_py db Group_members g = Ok db'
        /\ related models_py db' Group_members g = []
        /\ (forall r, In r db' <->
              In r db /\ ~ (r_model r = "Membership" /\ col r "group" = g))).
Proof.
  intros Hreach.
  destruct (reachable_consistent models_py models_py_cascade db Hreach)
    as [Hint Hnd].
  pose proof (proj1 (typed_In models_py db) (reachable_typed models_py db Hreach))
    as Htyped.
  split; [reflexivity|]. split.
  - split.
    + intros [r [Hr Hpk]]. apply related_In in Hr.
      destruct Hr as [m [Hm [_ Hid]]]. apply links_In in Hm.
      destruct Hm as [Hm [Hmodel Hg]]. exists m.
      unfold rid in Hid. injection Hid as _ Hid. simpl in *.
      destruct (membership_attributes m (Htyped m Hm) Hmodel) as [Hd Hs].
      repeat split; try assumption; congruence.
    + intros [m [Hm [Hmodel [Hp [Hg _]]]]].
      unfold integrity in Hint. rewrite forallb_forall in Hint.
      specialize (Hint m Hm). rewrite row_ok_spec in Hint.
      rewrite Hmodel in Hint.
      specialize (Hint (mkfk "person" "Person" CASCADE false)
                    ltac:(now left)).
      simpl in Hint. rewrite Hp in Hint.
      destruct (bool_decide (p = VNull)); [discriminate|].
      apply resolves_In in Hint. destruct Hint as [r [Hr Hid]].
      exists r. split.
      * apply related_In. exists m. split; [apply links_In; auto|].
        split; [assumption|]. simpl. now rewrite Hp.
      * unfold rid in Hid. now injection Hid.
  - intros Hg. unfold clear.
    rewrite bool_decide_eq_false_2 by assumption.
    eexists. split; [reflexivity|]. split.
    + unfold related, links.
      rewrite (filter_all_false _ (delete_objs _ _ _)); [reflexivity|].
      intros r Hr. apply clear_rows in Hr; [|assumption].
      destruct Hr as [_ Hnot].
      change (through Group_members) with "Membership".
      change (source_field Group_members) with "group".
      destruct (String.eqb_spec (r_model r) "Membership") as [Hm|];
        [|reflexivity].
      simpl. apply bool_decide_eq_false. intros Hcol. apply Hnot. auto.
    + intros r. now apply clear_rows.
Qed.

Lemma beatles_session_reachable : reachable models_py beatles_session.
Proof.
  apply (reachable_step _
           [setattr ringo "id" (VInt 1); setattr beatles "id" (VInt 1)]).
  - apply (reachable_step _ [setattr ringo "id" (VInt 1)]).
    + apply (reachable_step _ []); [constructor|].
      apply (step_create _ (datetime.mkdate 1962 8 16) [] ringo _
               (setattr ringo "id" (VInt 1))).
      reflexivity.
    + apply (step_create _ (datetime.mkdate 1962 8 16) _ beatles _
               (setattr beatles "id" (VInt 1))).
      reflexivity.
  - apply (step_save _ _ m1 _ (setattr m1 "id" (VInt 1))). reflexivity.
Defined.

Lemma members_are_membership_rows_witness :
  exists r, In r (related models_py beatles_session Group_members (VInt 1))
            /\ pk models_py r = VInt 1.
Proof.
  refine (proj2 (proj1 (proj2 (members_are_membership_rows
            beatles_session (VInt 1) (VInt 1) beatles_session_reachable))) _).
  exists (setattr m1 "id" (VInt 1)).
  repeat split; [simpl; tauto | eexists; reflexivity | eexists; reflexivity].
Defined.

End membership.

(** * Further properties of the methods *)

(** ** [Question.was_published_recently] over time *)

(** X1: what is recent stays recent when looked at earlier or when
    published later: the answer can only go from true to false as the
    clock advances. *)
Theorem recently_monotone (q q' : Question.t) (t t' : datetime.instant) :
  datetime.micros t' <= datetime.micros t ->
  datetime.micros (Question.pub_date q)
    <= datetime.micros (Question.pub_date q') ->
  Question.was_published_recently q t = true ->
  Question.was_published_recently q' t' = true.
Proof.
  intros Ht Hp. rewrite !recently_iff. lia.
Qed.

Lemma recently_monotone_witness :
  Question.was_published_recently
    (Question.mk "What's up?" (datetime.mkinstant 63700000000000500))
    (datetime.mkinstant 63700000000000000) = true.
Proof.
  apply (recently_monotone
           (Question.mk "What's new?" (datetime.mkinstant 63700000000000000))
           _ (datetime.mkinstant 63700000000000100)); simpl; try lia.
  reflexivity.
Defined.

(** X2: the one-day bound is inclusive: exactly one day after its
    publication a question is still recent, one microsecond later it is
    not, and at the moment of publication it is. *)
Theorem recently_expiry (q : Question.t) :
  Question.was_published_recently q (Question.pub_date q) = true
  /\ Question.was_published_recently q
       (datetime.mkinstant
          (datetime.micros (Question.pub_date q) + 86400 * 1000000)) = true
  /\ Question.was_published_recently q
       (datetime.mkinstant
          (datetime.micros (Question.pub_date q) + 86400 * 1000000 + 1))
     = false.
Proof.
  repeat split.
  - apply recently_iff. lia.
  - apply recently_iff. simpl. lia.
  - apply not_true_is_false. rewrite recently_iff. simpl. lia.
Qed.

(** ** [Person.baby_boomer_status] as a function of the date *)

Section boomer_dates.
Import datetime.

Lemma date_new_fields (d : date) :
  date_new (year d) (month d) (day d) = Ok d ->
  1 <= year d <= 9999 /\ 1 <= month d <= 12 /\ 1 <= day d <= 31.
Proof.
  unfold date_new, MINYEAR, MAXYEAR.
  destruct (_ && _) eqn:Hy; simpl; [|discriminate].
  destruct ((1 <=? month d) && _) eqn:Hm; simpl; [|discriminate].
  destruct ((1 <=? day d) && _) eqn:Hd; simpl; [|discriminate].
  intros _.
  apply andb_true_iff in Hy, Hm, Hd.
  rewrite !Z.leb_le in Hy, Hm, Hd.
  assert (days_in_month (year d) (month d) <= 31).
  { unfold days_in_month.
    destruct (month d =? 2); [destruct (is_leap _); lia|].
    destruct (_ || _); lia. }
  lia.
Qed.

(** Against the first day of a month only year and month count. *)
Lemma date_lt_first_of_month (d : date) (y m : Z) :
  1 <= day d ->
  date_lt d (mkdate y m 1) =
    match year d ?= y with
    | Lt => true
    | Eq => month d <? m
    | Gt => false
    end.
Proof.
  intros Hday. unfold date_lt, date_cmp; simpl.
  destruct (year d ?= y); try reflexivity.
  unfold Z.ltb. destruct (month d ?= m); try reflexivity.
  destruct (Z.compare_spec (day d) 1); try reflexivity. lia. 
Qed.

Lemma date_le_lt_trans (a b c : date) :
  date_le a b = true -> date_lt b c = true -> date_lt a c = true.
Proof.
  unfold date_le, date_lt, date_cmp.
  destruct a as [ya ma da], b as [yb mb db], c as [yc mc dc]; simpl.
  destruct (Z.compare_spec ya yb), (Z.compare_spec yb yc); try discriminate;
    destruct (Z.compare_spec ma mb), (Z.compare_spec mb mc); try discriminate;
    destruct (Z.compare_spec da db), (Z.compare_spec db dc); try discriminate;
    intros _ _;
    repeat match goal with
      | |- context [?x ?= ?y] => destruct (Z.compare_spec x y); try lia
      end; reflexivity.
Qed.

(** X3: the day of birth never matters: two persons born in the same
    month of the same year have the same status, because both bounds
    fall on the first day of a month. *)
Theorem status_ignores_day (p p' : Person.t) (d d' : date) :
  Person.birth_date p = Some d ->
  Person.birth_date p' = Some d' ->
  date_new (year d) (month d) (day d) = Ok d ->
  date_new (year d') (month d') (day d') = Ok d' ->
  year d = year d' -> month d = month d' ->
  Person.baby_boomer_status p = Person.baby_boomer_status p'.
Proof.
  intros Hd Hd' Hv Hv' Hy Hm.
  apply date_new_fields in Hv, Hv'.
  rewrite (status_unfold p d Hd), (status_unfold p' d' Hd').
  rewrite !date_lt_first_of_month by lia.
  now rewrite Hy, Hm.
Qed.

Lemma status_ignores_day_witness :
  Person.baby_boomer_status
    (Person.mk "Ringo Starr" "M" "Ringo" "Starr" (Some (mkdate 1940 7 7)))
  = Person.baby_boomer_status
      (Person.mk "Fred" "L" "Fred" "Flintstone" (Some (mkdate 1940 7 31))).
Proof.
  apply (status_ignores_day _ _ (mkdate 1940 7 7) (mkdate 1940 7 31));
    reflexivity.
Defined.

(** X4: outside 1945 the year alone decides: born in 1944 or before is
    ["Pre-boomer"], born from 1946 to 1964 is ["Baby boomer"], born in
    1965 or later is ["Post-boomer"]; in 1945 the months up to July are
    ["Pre-boomer"] and those from August on are ["Baby boomer"]. *)
Theorem status_by_year (p : Person.t) (d : date) :
  Person.birth_date p = Some d ->
  date_new (year d) (month d) (day d) = Ok d ->
  Person.baby_boomer_status p =
    if year d <? 1945 then Ok "Pre-boomer"
    else if year d =? 1945 then
      (if month d <? 8 then Ok "Pre-boomer" else Ok "Baby boomer")
    else if year d <? 1965 then Ok "Baby boomer"
    else Ok "Post-boomer".
Proof.
  intros Hd Hv. apply date_new_fields in Hv.
  rewrite (status_unfold p d Hd).
  rewrite !date_lt_first_of_month by lia.
  destruct (Z.ltb_spec (year d) 1945), (Z.eqb_spec (year d) 1945),
    (Z.ltb_spec (year d) 1965);
    destruct (Z.compare_spec (year d) 1945), (Z.compare_spec (year d) 1965);
    try lia; try reflexivity;
    destruct (Z.ltb_spec (month d) 8), (Z.ltb_spec (month d) 1);
    try lia; reflexivity.
Qed.

Lemma status_by_year_witness :
  Person.baby_boomer_status
    (Person.mk "Paul McCartney" "M" "Paul" "McCartney"
       (Some (mkdate 1942 6 18)))
  = Ok "Pre-boomer".
Proof.
  apply (status_by_year _ (mkdate 1942 6 18)); reflexivity.
Defined.

(** X5: the status follows the order of the birth dates: nobody born
    before a pre-boomer is anything but a pre-boomer, and nobody born
    after a post-boomer is anything but a post-boomer. *)
Theorem status_monotone (p p' : Person.t) (d d' : date) :
  Person.birth_date p = Some d ->
  Person.birth_date p' = Some d' ->
  date_le d d' = true ->
  (Person.baby_boomer_status p' = Ok "Pre-boomer" ->
   Person.baby_boomer_status p = Ok "Pre-boomer")
  /\ (Person.baby_boomer_status p = Ok "Post-boomer" ->
      Person.baby_boomer_status p' = Ok "Post-boomer").
Proof.
  intros Hd Hd' Hle.
  rewrite (status_unfold p d Hd), (status_unfold p' d' Hd').
  split.
  - destruct (date_lt d' (mkdate 1945 8 1)) eqn:H1.
    + now rewrite (date_le_lt_trans d d' _ Hle H1).
    + destruct (date_lt d' (mkdate 1965 1 1)); discriminate.
  - destruct (date_lt d (mkdate 1945 8 1)) eqn:H1; [discriminate|].
    destruct (date_lt d (mkdate 1965 1 1)) eqn:H2; [discriminate|].
    intros _.
    destruct (date_lt d' (mkdate 1945 8 1)) eqn:H3.
    { pose proof (date_le_lt_trans d d' _ Hle H3). congruence. }
    destruct (date_lt d' (mkdate 1965 1 1)) eqn:H4; [|reflexivity].
    pose proof (date_le_lt_trans d d' _ Hle H4). congruence.
Qed.

Lemma status_monotone_witness :
  Person.baby_boomer_status
    (Person.mk "Ringo Starr" "M" "Ringo" "Starr" (Some (mkdate 1940 7 7)))
  = Ok "Pre-boomer".
Proof.
  refine (proj1 (status_monotone _
    (Person.mk "Paul McCartney" "M" "Paul" "McCartney"
       (Some (mkdate 1942 6 18)))
    (mkdate 1940 7 7) (mkdate 1942 6 18) _ _ _) _); reflexivity.
Defined.

End boomer_dates.

(** ** [Person.full_name] as a function of the two names *)

Section full_names.

Lemma full_name_value (p : Person.t) :
  fst (Person.full_name p)
  = Ok (Person.first_name p +:+ " " +:+ Person.last_name p).
Proof.
  unfold Person.full_name, Person.getter_bind, Person.getattr. simpl.
  now rewrite append_empty_r.
Qed.

Lemma append_cons (c : ascii) (a b : string) :
  String c a +:+ b = String c (a +:+ b).
Proof. reflexivity. Qed.

Lemma spaced_inj (a a' b b' : string) :
  contains_space a = false -> contains_space a' = false ->
  a +:+ " " +:+ b = a' +:+ " " +:+ b' -> a = a' /\ b = b'.
Proof.
  revert a'. induction a as [|c a IH]; intros [|c' a'] Ha Ha' Heq.
  - injection Heq as Heq. auto.
  - rewrite append_cons in Heq. injection Heq as Hc _. subst c'.
    simpl in Ha'. discriminate.
  - rewrite append_cons in Heq. injection Heq as Hc _. subst c.
    simpl in Ha. discriminate.
  - rewrite !append_cons in Heq. injection Heq as Hc Heq. subst c'.
    simpl in Ha, Ha'. apply orb_false_iff in Ha, Ha'.
    destruct (IH a' (proj2 Ha) (proj2 Ha') Heq) as [-> ->]. auto.
Qed.

(** X6: when neither first name contains a space, the full name
    determines both names: two persons with the same full name have the
    same first name and the same last name. *)
Theorem full_name_injective (p q : Person.t) :
  contains_space (Person.first_name p) = false ->
  contains_space (Person.first_name q) = false ->
  fst (Person.full_name p) = fst (Person.full_name q) ->
  Person.first_name p = Person.first_name q
  /\ Person.last_name p = Person.last_name q.
Proof.
  intros Hp Hq. rewrite !full_name_value. intros [= Heq].
  now apply spaced_inj.
Qed.

Lemma full_name_injective_witness :
  Person.first_name (Person.mk "Ringo Starr" "M" "Ringo" "Starr" None)
  = Person.first_name
      (Person.mk "R. Starr" "L" "Ringo" "Starr"
         (Some (datetime.mkdate 1940 7 7)))
  /\ Person.last_name (Person.mk "Ringo Starr" "M" "Ringo" "Starr" None)
     = Person.last_name
         (Person.mk "R. Starr" "L" "Ringo" "Starr"
            (Some (datetime.mkdate 1940 7 7))).
Proof.
  apply full_name_injective; reflexivity.
Defined.

(** A space inside a first name breaks this: the split of the full
    name is then not unique. *)
Lemma full_name_collision :
  fst (Person.full_name
         (Person.mk "Mary Ann Smith" "S" "Mary Ann" "Smith" None))
  = fst (Person.full_name
           (Person.mk "Mary Ann Smith" "S" "Mary" "Ann Smith" None)).
Proof. reflexivity. Qed.

(** X7: [full_name] succeeds for every person, and its result is
    longer than the first and the last name together by exactly the one
    space between them. *)
Theorem full_name_length (p : Person.t) :
  exists s, fst (Person.full_name p) = Ok s
    /\ String.length s
       = (String.length (Person.first_name p) + 1
          + String.length (Person.last_name p))%nat.
Proof.
  rewrite full_name_value. eexists. split; [reflexivity|].
  assert (Hlen : forall a b : string,
            String.length (a +:+ b) = (String.length a + String.length b)%nat).
  { induction a as [|c a IH]; intros b; [reflexivity|].
    rewrite append_cons. simpl. now rewrite IH. }
  rewrite !Hlen. simpl. lia.
Qed.

End full_names.

(** ** Importing the module *)

Section importing.
Import Schema Pyimport.

Lemma exec_classes_bound (bound : list string) (ms : list model)
  (out : list string) :
  exec_classes bound ms = Imported out ->
  out = (bound ++ map m_name ms)%list
  /\ forall pre m post, ms = (pre ++ m :: post)%list ->
       forall n, In n (names_read m) ->
         In n (bound ++ map m_name pre)%list.
Proof.
  revert bound. induction ms as [|m ms IH]; intros bound; simpl.
  - intros [= <-]. split; [now rewrite app_nil_r|].
    intros [|? ?] ? ? H; discriminate.
  - destruct (find _ (names_read m)) as [n0|] eqn:Hfind; [discriminate|].
    intros Hexec. apply IH in Hexec. destruct Hexec as [-> Hpre].
    split; [now rewrite <- app_assoc|].
    intros [|c pre] m' post Heq n Hn; simpl in Heq; injection Heq as <- ->.
    + rewrite app_nil_r.
      pose proof (find_none _ _ Hfind n Hn) as Hb. simpl in Hb.
      apply negb_false_iff in Hb. unfold is_bound in Hb.
      apply existsb_exists in Hb. destruct Hb as [x [Hx Heq]].
      apply String.eqb_eq in Heq. now subst x.
    + specialize (Hpre pre m' post eq_refl n Hn).
      simpl. now rewrite <- app_assoc in Hpre.
Qed.

(** X8: importing [models.py] fails.  The class statements up to [Blog]
    run, then the body of [Entry] looks up [Author], which is bound only
    by a later statement: [NameError], and neither [Entry] nor any class
    after it is defined.  An import can succeed only if every class
    named by a relation is bound before the class that names it. *)
Theorem import_raises_NameError :
  exec_classes module_globals models_py
  = NameError "Author"
      (module_globals ++
       [ "Question"; "Choice"; "Person"; "Group"; "Membership"; "Ox";
         "Musician"; "Album"; "Runner"; "Fruit"; "Manufacturer"; "Car";
         "Topping"; "Pizza"; "Blog1"; "Blog" ])
  /\ forall bound out,
       exec_classes bound models_py = Imported out -> In "Author" bound.
Proof.
  split; [reflexivity|].
  intros bound out Hexec. apply exec_classes_bound in Hexec.
  destruct Hexec as [_ Hpre].
  specialize (Hpre (firstn 16 models_py) (nth 16 models_py (mkmodel EmptyString [] []))
                (skipn 17 models_py) eq_refl "Author").
  simpl in Hpre.
  assert (Hin : In "Author" (bound ++ map m_name (firstn 16 models_py))%list).
  { apply Hpre. auto. }
  apply in_app_or in Hin. destruct Hin as [Hin|Hin]; [assumption|].
  exfalso. simpl in Hin.
  repeat (destruct Hin as [Hin|Hin]; [discriminate|]). destruct Hin.
Qed.

End importing.

(** * Further properties of the stored rows *)

(** ** Deleting *)

Section deleting.
Import ORM Schema.

(** X9: deletion cascades along every foreign key declared in
    [models.py], not only from questions to choices: a row whose foreign
    key refers to a deleted row is deleted with it. *)
Theorem cascade_every_foreign_key (db : list row)
  (targets : list (string * value)) (c : row) (k : foreign_key) :
  In c db ->
  In k (fks models_py (r_model c)) ->
  col c (fk_field k) <> VNull ->
  In (fk_to k, col c (fk_field k)) targets ->
  ~ In c (delete_objs models_py db targets).
Proof.
  intros Hc Hk Hset Ht. apply delete_objs_closed; [assumption|].
  unfold points_to. apply existsb_exists. exists k. split; [assumption|].
  rewrite (models_py_cascade _ _ Hk). simpl.
  rewrite bool_decide_eq_false_2 by assumption. simpl.
  apply bool_decide_eq_true, collect_keeps. now apply list_elem_of_In.
Qed.

Lemma cascade_every_foreign_key_witness :
  In (setattr m1 "id" (VInt 1)) beatles_session
  /\ ~ In (setattr m1 "id" (VInt 1))
        (delete_objs models_py beatles_session [("Person", VInt 1)]).
Proof.
  split; [simpl; tauto|].
  apply (cascade_every_foreign_key beatles_session _ _
           (mkfk "person" "Person" CASCADE false)).
  - simpl. tauto.
  - simpl. tauto.
  - discriminate.
  - simpl. tauto.
Defined.

(** X10: deletion runs from the referenced row to the referring rows,
    never back: a row of a model without foreign keys (a question, a
    person, a group) is deleted only when it is itself a target. *)
Theorem delete_spares_referenced_rows (db : list row)
  (targets : list (string * value)) (r : row) :
  In r db ->
  fks models_py (r_model r) = [] ->
  ~ In (rid models_py r) targets ->
  In r (delete_objs models_py db targets).
Proof.
  intros Hr Hfks Hnot. apply delete_objs_In. split; [assumption|].
  intros Hin. apply collect_sound in Hin.
  destruct Hin as [Hin|[r' [_ [Hid Hpt]]]].
  - apply Hnot. now apply list_elem_of_In.
  - unfold points_to in Hpt.
    assert (Hm : r_model r' = r_model r) by (unfold rid in Hid; congruence).
    rewrite Hm, Hfks in Hpt. discriminate.
Qed.

Lemma delete_spares_referenced_rows_witness :
  In (setattr ringo "id" (VInt 1))
    (delete_objs models_py beatles_session [("Membership", VInt 1)]).
Proof.
  apply delete_spares_referenced_rows.
  - simpl. tauto.
  - reflexivity.
  - simpl. intros [H|[]]. discriminate.
Defined.

End deleting.

(** ** Saving and creating *)

Section saving.
Import ORM Schema.

Lemma prepare_spec (ms : list model) (db : list row) (inst inst' : row) :
  prepare ms db inst = Ok inst' ->
  r_model inst' = r_model inst
  /\ pk ms inst' <> VNull
  /\ (pk ms inst <> VNull -> inst' = inst)
  /\ (pk ms inst = VNull ->
      explicit_pk ms (r_model inst) = None
      /\ inst' = setattr inst "id" (VInt (next_id ms db (r_model inst)))).
Proof.
  intros H. apply prepare_inv in H. tauto.
Qed.

(** X11: a saved object can be found again: after [save] succeeds the
    saved instance is a stored row, it has a primary key, the key
    resolves to it, and, primary keys being unique, to no other row. *)
Theorem save_then_lookup (db db' : list row) (inst inst' : row) :
  save models_py db inst = Ok (db', inst') ->
  In inst' db'
  /\ pk models_py inst' <> VNull
  /\ resolves models_py db' (r_model inst') (pk models_py inst') = true
  /\ (consistent models_py db ->
      forall r, In r db' -> rid models_py r = rid models_py inst' ->
                r = inst').
Proof.
  intros Hsave.
  assert (Hin : In inst' db' /\ pk models_py inst' <> VNull).
  { unfold save in Hsave.
    destruct (prepare models_py db inst) as [i|] eqn:Hp; [|discriminate].
    apply prepare_spec in Hp. destruct Hp as [_ [Hpk _]]. simpl in Hsave.
    destruct (resolves models_py db (r_model i) (pk models_py i)) eqn:Hres;
      injection Hsave as <- <-; (split; [|assumption]).
    - apply resolves_In in Hres. destruct Hres as [r [Hr Hid]].
      apply in_map_iff. exists r. split; [|assumption].
      rewrite bool_decide_eq_true_2; [reflexivity | exact Hid].
    - apply in_or_app. right. now left. }
  destruct Hin as [Hin Hpk]. repeat split; try assumption.
  - apply resolves_In. exists inst'. auto.
  - intros Hc r Hr Hid.
    destruct (save_consistent models_py db db' inst inst' Hc Hsave)
      as [_ Hnd].
    now apply (NoDup_map_eq (rid models_py) db').
Qed.

Lemma save_then_lookup_witness :
  In (setattr m1 "id" (VInt 1)) beatles_session.
Proof.
  refine (proj1 (save_then_lookup
    [setattr ringo "id" (VInt 1); setattr beatles "id" (VInt 1)]
    beatles_session m1 (setattr m1 "id" (VInt 1)) _)).
  reflexivity.
Defined.

(** X12: saving an object whose primary key is stored updates that row
    in place: afterwards the row under that key is the instance saved,
    with its values, and no other row has the key; the table keeps its
    length and its primary keys, and the rows with other keys are
    untouched. *)
Theorem save_updates_in_place (db db' : list row) (inst inst' : row) :
  pk models_py inst <> VNull ->
  resolves models_py db (r_model inst) (pk models_py inst) = true ->
  save models_py db inst = Ok (db', inst') ->
  inst' = inst
  /\ In inst db'
  /\ (forall r, In r db' -> rid models_py r = rid models_py inst -> r = inst)
  /\ map (rid models_py) db' = map (rid models_py) db
  /\ length db' = length db
  /\ (forall r, In r db -> rid models_py r <> rid models_py inst ->
                In r db').
Proof.
  intros Hpk Hres Hsave. unfold save in Hsave.
  destruct (prepare models_py db inst) as [i|] eqn:Hp; [|discriminate].
  apply prepare_spec in Hp. destruct Hp as [_ [_ [Hsame _]]].
  specialize (Hsame Hpk). subst i. simpl in Hsave. rewrite Hres in Hsave.
  injection Hsave as <- <-. repeat split.
  - apply resolves_In in Hres. destruct Hres as [r0 [Hr0 Hid]].
    apply in_map_iff. exists r0. split; [|assumption].
    rewrite bool_decide_eq_true_2; [reflexivity | exact Hid].
  - intros r Hr Hid. apply in_map_iff in Hr. destruct Hr as [r0 [Hr Hr0]].
    destruct (bool_decide (rid models_py r0 = rid models_py inst)) eqn:E;
      [now symmetry|].
    apply bool_decide_eq_false in E. subst r. contradiction.
  - apply map_rid_replace.
  - apply length_map.
  - intros r Hr Hne. apply in_map_iff. exists r. split; [|assumption].
    rewrite bool_decide_eq_false_2; [reflexivity | assumption].
Qed.

Lemma save_updates_in_place_witness :
  In (setattr (setattr ringo "id" (VInt 1)) "name" (VStr "Richard Starkey"))
    [ setattr (setattr ringo "id" (VInt 1)) "name" (VStr "Richard Starkey");
      setattr beatles "id" (VInt 1);
      setattr m1 "id" (VInt 1) ].
Proof.
  refine (proj1 (proj2 (save_updates_in_place beatles_session _
    (setattr (setattr ringo "id" (VInt 1)) "name" (VStr "Richard Starkey"))
    (setattr (setattr ringo "id" (VInt 1)) "name" (VStr "Richard Starkey"))
    _ _ _))).
  - discriminate.
  - reflexivity.
  - reflexivity.
Defined.

End saving.

(** ** Automatic primary keys *)

Section fresh_ids.
Import ORM Schema.

Lemma max_bound (l : list Z) (z : Z) :
  In z l -> z <= fold_right Z.max 0 l.
Proof.
  induction l as [|x l IH]; simpl; [tauto|].
  intros [->|Hz]; [lia|]. specialize (IH Hz). lia.
Qed.

Lemma next_id_fresh (ms : list model) (db : list row) (n : string) :
  resolves ms db n (VInt (next_id ms db n)) = false.
Proof.
  destruct (resolves ms db n _) eqn:Hres; [|reflexivity]. exfalso.
  apply resolves_In in Hres. destruct Hres as [r [Hr Hid]].
  unfold rid in Hid. injection Hid as Hm Hpk.
  assert (Hin : In (int_pk ms r) (map (int_pk ms) (rows_of db n))).
  { apply in_map, filter_In. split; [assumption|].
    now apply String.eqb_eq. }
  apply max_bound in Hin. unfold int_pk in Hin at 1. rewrite Hpk in Hin.
  simpl in Hin. unfold next_id in Hin. lia.
Qed.

Lemma no_foreign_key_named_id (n : string) (k : foreign_key) :
  In k (fks models_py n) -> fk_field k <> "id".
Proof.
  intros Hk Heq.
  assert (H := fks_forall (fun k => negb (String.eqb (fk_field k) "id"))
                 models_py n k eq_refl Hk).
  simpl in H. rewrite Heq in H. discriminate.
Qed.

Lemma row_ok_set_id (db : list row) (inst : row) (v : value) :
  row_ok models_py db (setattr inst "id" v) = row_ok models_py db inst.
Proof.
  unfold row_ok. simpl.
  assert (Hext : forall (f g : foreign_key -> bool) l,
            (forall k, In k l -> f k = g k) -> forallb f l = forallb g l).
  { intros f g l. induction l as [|x l IH]; simpl; [reflexivity|].
    intros H. rewrite (H x (or_introl eq_refl)), IH; [reflexivity|].
    intros k Hk. apply H. now right. }
  apply Hext. intros k Hk.
  rewrite col_setattr_ne; [reflexivity|].
  intros Heq. now apply (no_foreign_key_named_id _ _ Hk).
Qed.

Lemma no_column_named_id (n : string) (f : field) :
  In f (columns models_py n) -> f_name f <> "id".
Proof.
  unfold columns, table, find_model. intros Hf Heq.
  destruct (find _ (tables models_py)) as [m|] eqn:Hm; [|destruct Hf].
  apply find_some in Hm. destruct Hm as [Hm _].
  apply filter_In in Hf. destruct Hf as [Hf _].
  assert (Hall : forallb (fun m =>
            forallb (fun f => negb (String.eqb (f_name f) "id")) (m_fields m))
            (tables models_py) = true) by reflexivity.
  rewrite forallb_forall in Hall. specialize (Hall m Hm).
  rewrite forallb_forall in Hall. specialize (Hall f Hf).
  rewrite Heq in Hall. discriminate.
Qed.

(** X13: creating an object of a declared model with the implicit [id]
    never fails on its key: when the object as constructed, whatever
    [id] it is given, satisfies the declared types and NOT NULL columns
    and its foreign keys resolve, [create] succeeds, appends one row, and
    gives it a positive [id] that no row of its table has. *)
Theorem create_draws_fresh_id (today : datetime.date) (db : list row)
  (kwargs : row) :
  table models_py (r_model kwargs) <> None ->
  explicit_pk models_py (r_model kwargs) = None ->
  pk models_py (init models_py today kwargs) = VNull ->
  (forall k, conforms models_py
               (setattr (init models_py today kwargs) "id" (VInt k)) = true) ->
  row_ok models_py db (init models_py today kwargs) = true ->
  exists k,
    create models_py today db kwargs
    = Ok ((db ++ [setattr (init models_py today kwargs) "id" (VInt k)])%list,
          setattr (init models_py today kwargs) "id" (VInt k))
    /\ 1 <= k
    /\ (forall r, In r db -> r_model r = r_model kwargs ->
                  pk models_py r <> VInt k).
Proof.
  intros Htable Hauto Hnull Hconf Hok.
  exists (next_id models_py db (r_model kwargs)).
  assert (Hfresh := next_id_fresh models_py db (r_model kwargs)).
  repeat split.
  - unfold create.
    remember (init models_py today kwargs) as inst eqn:Hi in *.
    assert (Hm : r_model inst = r_model kwargs) by (subst inst; reflexivity).
    clear Hi. unfold prepare. rewrite Hm, Hnull, Hauto.
    destruct (table models_py (r_model kwargs)); [|contradiction].
    rewrite bool_decide_eq_true_2 by reflexivity.
    unfold mbind, result_bind.
    specialize (Hconf (next_id models_py db (r_model kwargs))).
    unfold conforms in Hconf. apply andb_true_iff in Hconf.
    destruct Hconf as [-> ->]. simpl negb. cbv iota.
    rewrite row_ok_set_id, Hok.
    unfold pk, pk_name. simpl r_model. rewrite Hm, Hauto. simpl default.
    rewrite col_setattr_eq, Hfresh. reflexivity.
  - unfold next_id.
    assert (0 <= fold_right Z.max 0
                   (map (int_pk models_py) (rows_of db (r_model kwargs)))).
    { generalize (map (int_pk models_py) (rows_of db (r_model kwargs))).
      induction l; simpl; lia. }
    lia.
  - intros r Hr Hmr Hpk.
    assert (Hres : resolves models_py db (r_model kwargs)
                     (VInt (next_id models_py db (r_model kwargs))) = true).
    { apply resolves_In. exists r. split; [assumption|].
      unfold rid. congruence. }
    congruence.
Qed.

Lemma create_draws_fresh_id_witness :
  exists k,
    create models_py (datetime.mkdate 1962 8 16) beatles_session paul
    = Ok ((beatles_session
           ++ [setattr (init models_py (datetime.mkdate 1962 8 16) paul)
                 "id" (VInt k)])%list,
          setattr (init models_py (datetime.mkdate 1962 8 16) paul)
            "id" (VInt k))
    /\ 1 <= k.
Proof.
  destruct (create_draws_fresh_id (datetime.mkdate 1962 8 16)
              beatles_session paul)
    as [k [Hcreate [Hpos _]]];
    [discriminate | reflexivity | reflexivity | intros k; reflexivity
    | reflexivity |].
  exists k. split; [exact Hcreate | exact Hpos].
Defined.

End fresh_ids.

(** ** Adding and setting members *)

Section members.
Import ORM Schema.

Lemma linked_In (db : list row) (rel : relation) (g p : value) :
  linked db rel g p = true <->
  exists m, In m (links db rel g) /\ col m (target_field rel) = p.
Proof.
  unfold linked. rewrite existsb_exists.
  split; intros [m [Hm Hp]]; exists m; split; try assumption.
  - now apply bool_decide_eq_true in Hp.
  - now apply bool_decide_eq_true.
Qed.

Lemma links_app (db new : list row) (rel : relation) (g : value) (m : row) :
  In m (links (db ++ new) rel g) <->
  In m (links db rel g) \/ In m (links new rel g).
Proof.
  rewrite !links_In, in_app_iff. tauto.
Qed.

Lemma linked_app (db new : list row) (rel : relation) (g p : value) :
  linked db rel g p = true -> linked (db ++ new) rel g p = true.
Proof.
  rewrite !linked_In. intros [m [Hm Hp]]. exists m. split; [|assumption].
  apply links_app. now left.
Qed.

Lemma assoc_app_some {A} (k : string) (v : A) (l l' : list (string * A)) :
  assoc k l = Some v -> assoc k (l ++ l') = Some v.
Proof.
  induction l as [|[k0 v0] l IH]; simpl; [discriminate|].
  destruct (String.eqb k0 k); auto.
Qed.

(** The constructor keeps the attributes it is given. *)
Lemma col_init_given (ms : list model) (today : datetime.date) (r : row)
  (f : string) (v : value) :
  assoc f (r_cols r) = Some v -> col (init ms today r) f = v.
Proof.
  intros H. unfold col, init. simpl.
  now rewrite (assoc_app_some _ _ _ _ H).
Qed.

Lemma create_spec (ms : list model) (today : datetime.date)
  (db db' : list row) (kwargs i : row) :
  create ms today db kwargs = Ok (db', i) ->
  db' = (db ++ [i])%list
  /\ (i = init ms today kwargs
      \/ exists v, i = setattr (init ms today kwargs) "id" v).
Proof.
  unfold create. intros H.
  destruct (prepare ms db _) as [i0|] eqn:Hp; [|discriminate].
  apply prepare_spec in Hp. destruct Hp as [_ [_ [Hsame Hnew]]].
  simpl in H. destruct (resolves ms db _ _); [discriminate|].
  injection H as <- <-. split; [reflexivity|].
  destruct (decide (pk ms (init ms today kwargs) = VNull)) as [Hnull|Hset].
  - right. destruct (Hnew Hnull) as [_ ->]. eauto.
  - left. auto.
Qed.

(** What [add] leaves: the old rows, then new link rows of the group to
    some of the persons given, and every person given is linked. *)
Lemma add_spec (today : datetime.date) (g : value)
  (td : list (string * value)) (ps : list value) (db db' : list row) :
  add models_py today db Group_members g ps td = Ok db' ->
  (exists new, db' = (db ++ new)%list
     /\ forall r, In r new ->
          r_model r = "Membership" /\ col r "group" = g
          /\ In (col r "person") ps)
  /\ (forall p, In p ps -> linked db' Group_members g p = true).
Proof.
  revert db db'. induction ps as [|p ps IH]; intros db db'; simpl.
  - intros [= <-]. split; [|intros p []].
    exists []. split; [now rewrite app_nil_r | intros r []].
  - destruct (bool_decide (g = VNull) || bool_decide (p = VNull));
      [discriminate|].
    destruct (linked db Group_members g p) eqn:Hl.
    + intros Hadd. destruct (IH db db' Hadd) as [[new [-> Hnew]] Hlinked].
      split.
      * exists new. split; [reflexivity|].
        intros r Hr. destruct (Hnew r Hr) as [? [? ?]]. auto.
      * intros p0 [<-|Hp0]; [now apply linked_app | auto].
    + destruct (create models_py today db _) as [[db1 i]|] eqn:Hcr;
        [|discriminate].
      simpl. intros Hadd.
      apply create_spec in Hcr. destruct Hcr as [-> Hi].
      destruct (IH _ _ Hadd) as [[new [-> Hnew]] Hlinked].
      assert (Hrow : r_model i = "Membership" /\ col i "group" = g
                     /\ col i "person" = p).
      { destruct Hi as [->|[v ->]]; repeat split;
          rewrite ?col_setattr_ne by discriminate;
          now apply col_init_given. }
      split.
      * exists (i :: new). split; [now rewrite <- app_assoc|].
        intros r [<-|Hr].
        -- destruct Hrow as [? [? ->]]. auto.
        -- destruct (Hnew r Hr) as [? [? ?]]. auto.
      * intros p0 [<-|Hp0]; [|auto].
        destruct Hrow as [Hmodel [Hg Hp]].
        apply linked_app, linked_In. exists i. split; [|exact Hp].
        apply links_In. repeat split; try assumption.
        apply in_or_app. right. now left.
Qed.

(** X14: after [group.members.add(...)] succeeds every person given is
    a member, the earlier members still are, and the table has only
    grown by [Membership] rows that link the group to persons given. *)
Theorem add_makes_members (today : datetime.date) (db db' : list row)
  (g : value) (ps : list value) (td : list (string * value)) :
  add models_py today db Group_members g ps td = Ok db' ->
  (forall p, In p ps -> linked db' Group_members g p = true)
  /\ (forall p, linked db Group_members g p = true ->
                linked db' Group_members g p = true)
  /\ exists new, db' = (db ++ new)%list
       /\ forall r, In r new ->
            r_model r = "Membership" /\ col r "group" = g
            /\ In (col r "person") ps.
Proof.
  intros Hadd. apply add_spec in Hadd.
  destruct Hadd as [[new [-> Hnew]] Hlinked].
  repeat split; [assumption | intros p; apply linked_app | eauto].
Qed.

Lemma add_makes_members_witness :
  linked
    [ setattr ringo "id" (VInt 1); setattr beatles "id" (VInt 1);
      mkrow "Membership"
        [ ("group", VInt 1); ("person", VInt 1);
          ("date_joined", VDate (datetime.mkdate 1960 8 1));
          ("invite_reason", VStr EmptyString);
          ("id", VInt 1) ] ]
    Group_members (VInt 1) (VInt 1) = true.
Proof.
  refine (proj1 (add_makes_members (datetime.mkdate 1962 8 16)
    [setattr ringo "id" (VInt 1); setattr beatles "id" (VInt 1)] _
    (VInt 1) [VInt 1] [("date_joined", VDate (datetime.mkdate 1960 8 1))] _)
    (VInt 1) _).
  - reflexivity.
  - simpl. tauto.
Defined.

(** Deleting rows that nothing refers to removes exactly them. *)
Lemma delete_membership_rows (db rows : list row) (r : row) :
  NoDup (map (rid models_py) db) ->
  (forall m, In m rows -> In m db /\ r_model m = "Membership") ->
  In r (delete_objs models_py db (map (rid models_py) rows)) <->
  In r db /\ ~ In r rows.
Proof.
  intros Hnd Hrows. rewrite delete_objs_In, collect_seeds_only.
  - split; intros [Hr Hnot]; (split; [assumption|]).
    + intros Hin. apply Hnot. now apply list_elem_of_In, in_map.
    + intros Hin. apply list_elem_of_In, in_map_iff in Hin.
      destruct Hin as [m [Hid Hm]].
      assert (m = r).
      { apply (NoDup_map_eq (rid models_py) db); auto. now apply Hrows. }
      now subst m.
  - intros r0 _. unfold points_to.
    destruct (existsb _ _) eqn:E; [|reflexivity]. exfalso.
    apply existsb_exists in E. destruct E as [k [Hk E]].
    apply andb_true_iff in E. destruct E as [_ E].
    apply bool_decide_eq_true, list_elem_of_In, in_map_iff in E.
    destruct E as [m [Hid Hm]]. apply Hrows in Hm. destruct Hm as [_ Hmodel].
    apply (nothing_refers_to_membership _ _ Hk).
    unfold rid in Hid. injection Hid as Hid _. now rewrite <- Hid.
Qed.

(** X15: after [group.members.set(objs)] succeeds the members of the
    group are exactly the persons given: those listed are linked, and
    nobody else is. *)
Theorem set_makes_members_exactly (today : datetime.date)
  (db db' : list row) (g : value) (ps : list value)
  (td : list (string * value)) :
  reachable models_py db ->
  set_ models_py today db Group_members g ps td = Ok db' ->
  forall p, linked db' Group_members g p = true <-> In p ps.
Proof.
  intros Hreach Hset p.
  destruct (reachable_consistent models_py models_py_cascade db Hreach)
    as [_ Hnd].
  unfold set_, remove in Hset.
  destruct (bool_decide (g = VNull)); [discriminate|].
  simpl in Hset.
  set (old := map (fun m => col m "person") (links db Group_members g)) in *.
  set (rows := List.filter _ (links db Group_members g)) in Hset.
  assert (Hrows : forall m, In m rows <->
            In m (links db Group_members g) /\ ~ In (col m "person") ps).
  { intros m. unfold rows. rewrite filter_In. simpl.
    rewrite bool_decide_eq_true, list_elem_of_In, filter_In.
    rewrite negb_true_iff, bool_decide_eq_false, list_elem_of_In.
    split; [tauto|]. intros [Hm Hnot]. repeat split; try assumption.
    unfold old. now apply in_map with (f := fun m => col m "person"). }
  assert (Hdel := fun r => delete_membership_rows db rows r Hnd
            (fun m Hm => let H := proj1 (proj1 (Hrows m) Hm) in
               conj (proj1 (proj1 (links_In _ _ _ _) H))
                    (proj1 (proj2 (proj1 (links_In _ _ _ _) H))))).
  apply add_spec in Hset. destruct Hset as [[new [-> Hnew]] Hlinked].
  assert (Hold : linked db Group_members g p = true <-> In p old).
  { rewrite linked_In. unfold old. rewrite in_map_iff.
    split; intros [m [H1 H2]]; exists m; auto. }
  split.
  - rewrite linked_In. intros [m [Hm Hp]].
    apply links_app in Hm. destruct Hm as [Hm|Hm].
    + apply links_In in Hm. destruct Hm as [Hm [Hmodel Hg]].
      apply Hdel in Hm. destruct Hm as [Hm Hkeep].
      destruct (in_dec value_eq_dec p ps) as [|Hout]; [assumption|].
      exfalso. apply Hkeep. apply Hrows. simpl in Hp. rewrite Hp.
      split; [|assumption]. apply links_In. auto.
    + apply links_In in Hm. destruct Hm as [Hm _].
      destruct (Hnew m Hm) as [_ [_ Hin]]. apply filter_In in Hin.
      simpl in Hp. rewrite Hp in Hin. tauto.
  - intros Hp. destruct (linked db Group_members g p) eqn:Hl.
    + apply linked_app. apply linked_In in Hl. destruct Hl as [m [Hm Hmp]].
      apply linked_In. exists m. split; [|assumption].
      pose proof Hm as Hm'. apply links_In in Hm'.
      destruct Hm' as [Hdb [Hmodel Hg]].
      apply links_In. repeat split; try assumption.
      apply Hdel. split; [assumption|].
      intros Hin. apply Hrows in Hin. simpl in Hmp. rewrite Hmp in Hin. tauto.
    + apply Hlinked. apply filter_In. split; [assumption|].
      apply negb_true_iff, bool_decide_eq_false. rewrite list_elem_of_In.
      intros Hin. apply Hold in Hin. congruence.
Qed.

(** The session with [paul] created as well. *)
Lemma beatles_and_paul_reachable :
  reachable models_py
    (beatles_session
     ++ [setattr (init models_py (datetime.mkdate 1962 8 16) paul)
           "id" (VInt 2)]).
Proof.
  apply (reachable_step _ beatles_session);
    [exact beatles_session_reachable|].
  apply (step_create _ (datetime.mkdate 1962 8 16) _ paul _
           (setattr (init models_py (datetime.mkdate 1962 8 16) paul)
              "id" (VInt 2))).
  reflexivity.
Defined.

Lemma set_makes_members_exactly_witness :
  exists db',
    set_ models_py (datetime.mkdate 1962 8 16)
      (beatles_session
       ++ [setattr (init models_py (datetime.mkdate 1962 8 16) paul)
             "id" (VInt 2)])
      Group_members (VInt 1) [VInt 2]
      [("date_joined", VDate (datetime.mkdate 1960 8 1))] = Ok db'
    /\ (linked db' Group_members (VInt 1) (VInt 2) = true
        <-> In (VInt 2) [VInt 2])
    /\ (linked db' Group_members (VInt 1) (VInt 1) = true
        <-> In (VInt 1) [VInt 2])
    /\ linked db' Group_members (VInt 1) (VInt 2) = true
    /\ linked db' Group_members (VInt 1) (VInt 1) = false.
Proof.
  eexists. split; [reflexivity|].
  split; [|split; [|split; reflexivity]].
  - refine (set_makes_members_exactly (datetime.mkdate 1962 8 16) _ _
              (VInt 1) [VInt 2]
              [("date_joined", VDate (datetime.mkdate 1960 8 1))]
              beatles_and_paul_reachable _ (VInt 2)).
    reflexivity.
  - refine (set_makes_members_exactly (datetime.mkdate 1962 8 16) _ _
              (VInt 1) [VInt 2]
              [("date_joined", VDate (datetime.mkdate 1960 8 1))]
              beatles_and_paul_reachable _ (VInt 1)).
    reflexivity.
Defined.

End members.

(** ** The two sides of the many-to-many relation *)

Section two_sides.
Import ORM Schema.

(** Either side of [Membership]: the rows that a manager yields are
    those that a link row refers to. *)
Lemma related_iff_row (rel : relation) (db : list row) (g p : value) :
  integrity models_py db = true ->
  through rel = "Membership" ->
  In (mkfk (target_field rel) (target_model rel) CASCADE false)
    (fks models_py "Membership") ->
  (exists r, In r (related models_py db rel g) /\ pk models_py r = p) <->
  (exists m, In m db /\ r_model m = "Membership"
             /\ col m (target_field rel) = p
             /\ col m (source_field rel) = g).
Proof.
  intros Hint Hthrough Hfk. split.
  - intros [r [Hr Hpk]]. apply related_In in Hr.
    destruct Hr as [m [Hm [_ Hid]]]. apply links_In in Hm.
    destruct Hm as [Hm [Hmodel Hg]]. exists m.
    unfold rid in Hid. injection Hid as _ Hid.
    repeat split; congruence.
  - intros [m [Hm [Hmodel [Hp Hg]]]].
    unfold integrity in Hint. rewrite forallb_forall in Hint.
    specialize (Hint m Hm). rewrite row_ok_spec in Hint.
    rewrite Hmodel in Hint. specialize (Hint _ Hfk).
    simpl in Hint. rewrite Hp in Hint.
    destruct (bool_decide (p = VNull)); [discriminate|].
    apply resolves_In in Hint. destruct Hint as [r [Hr Hid]].
    exists r. split.
    + apply related_In. exists m. split; [apply links_In; intuition congruence|].
      split; [assumption|]. now rewrite Hp.
    + unfold rid in Hid. now injection Hid.
Qed.

(** X16: the relation reads the same from both sides: in every reachable
    state a person is among [group.members] exactly when the group is
    among [person.group_set]. *)
Theorem members_and_group_set_agree (db : list row) (p g : value) :
  reachable models_py db ->
  (exists r, In r (related models_py db Group_members g)
             /\ pk models_py r = p)
  <-> (exists r, In r (related models_py db Person_group_set p)
                 /\ pk models_py r = g).
Proof.
  intros Hreach.
  destruct (reachable_consistent models_py models_py_cascade db Hreach)
    as [Hint _].
  rewrite (related_iff_row Group_members db g p Hint eq_refl);
    [|simpl; tauto].
  rewrite (related_iff_row Person_group_set db p g Hint eq_refl);
    [|simpl; tauto].
  simpl. split; intros [m H]; exists m; tauto.
Qed.

Lemma members_and_group_set_agree_witness :
  (exists r, In r (related models_py beatles_session Group_members (VInt 1))
             /\ pk models_py r = VInt 1)
  <-> (exists r,
         In r (related models_py beatles_session Person_group_set (VInt 1))
         /\ pk models_py r = VInt 1).
Proof.
  exact (members_and_group_set_agree beatles_session (VInt 1) (VInt 1)
           beatles_session_reachable).
Defined.

End two_sides.
